(** * Conformal action: diff line index, diagnostic classifier, review batcher

    A shallow embedding of the TypeScript sources [diff.ts]
    ([parsePatchLines], [parseChangedLines]), [analyzer.ts]
    ([classifySeverity], [analyzeFile]) and [review.ts] ([postReview]),
    followed by the properties the specification states about them; then
    of [main.ts] ([readSiblings] and [run]: the pagination loop, the file
    filter, the analysis loop and the outcome), with further properties of
    the four files.

    Conventions of the embedding.
    - A JavaScript [number] that holds a line number or a length is a [Z];
      [parseInt] and [++] are exact (the source only leaves the exact range
      of a double beyond 2^53).
    - A JavaScript string is a [string]; the line feed is [LF].
    - [Map<string, Set<number>>] is [gmap string (gset Z)].
    - An [undefined] optional field is [None]. *)

From stdpp Require Import gmap strings list pretty.
From Stdlib Require Import ZArith Ascii.

Local Open Scope string_scope.
Local Open Scope Z_scope.

(** ** JavaScript string helpers *)

Module Js.

(** The line feed character, ['\n']. *)
Definition LF : ascii := "010"%char.

(** [nl] is the one-character string ["\n"]. *)
Definition nl : string := String LF "".

(** [arr.length] as a number. *)
Definition len {A} (l : list A) : Z := Z.of_nat (length l).

(** [s.split('\n')]: never empty, [""] splits into [[""]]. *)
Fixpoint split_nl (s : string) : list string :=
  match s with
  | EmptyString => [""]
  | String c r =>
      if Ascii.eqb c LF then "" :: split_nl r
      else match split_nl r with
           | h :: t => String c h :: t
           | [] => [String c ""]
           end
  end.

(** [parts.join(sep)]. *)
Fixpoint join (sep : string) (parts : list string) : string :=
  match parts with
  | [] => ""
  | [p] => p
  | p :: rest => p ++ sep ++ join sep rest
  end.

(** Truthiness of a [string | undefined] value: [undefined] and the empty
    string are falsy. *)
Definition truthy (o : option string) : bool :=
  match o with
  | None => false
  | Some s => negb (String.eqb s "")
  end.

(** The class [\d] of a regular expression without the [u] flag: [0-9]. *)
Definition is_digit (c : ascii) : bool :=
  let n := nat_of_ascii c in (48 <=? n)%nat && (n <=? 57)%nat.

(** Greedy [\d*]: the longest digit prefix and what follows it. *)
Fixpoint span_digits (s : string) : string * string :=
  match s with
  | EmptyString => ("", "")
  | String c r =>
      if is_digit c
      then let '(ds, rest) := span_digits r in (String c ds, rest)
      else ("", s)
  end.

(** [parseInt(ds, 10)] on a string of decimal digits, most significant
    digit first. *)
Fixpoint parseInt_go (acc : Z) (ds : string) : Z :=
  match ds with
  | EmptyString => acc
  | String c r =>
      parseInt_go (10 * acc + (Z.of_nat (nat_of_ascii c) - 48)) r
  end.

Definition parseInt (ds : string) : Z := parseInt_go 0 ds.

(** Matching a literal at the head of the subject: the rest on success. *)
Fixpoint strip_prefix (p s : string) : option string :=
  match p, s with
  | EmptyString, _ => Some s
  | String a p', String b s' =>
      if Ascii.eqb a b then strip_prefix p' s' else None
  | String _ _, EmptyString => None
  end.

(** A string of decimal digits only. *)
Fixpoint all_digits (s : string) : bool :=
  match s with
  | EmptyString => true
  | String c r => is_digit c && all_digits r
  end.

(** [s.startsWith(p)]. *)
Definition startsWith (s p : string) : bool :=
  match strip_prefix p s with
  | Some _ => true
  | None => false
  end.

End Js.

(** ** diff.ts *)

Module Diff.
Import Js.

Record PullFile := {
  filename : string;
  status : string;
  patch : option string;
  previous_filename : option string
}.

(** The group [(?:,\d+)?]: consumed when a comma is followed by at least
    one digit, skipped otherwise. What follows the group in the pattern is
    a space, so no backtracking into a shorter match can succeed. *)
Definition skip_count (s : string) : string :=
  match s with
  | String c r =>
      if Ascii.eqb c ","%char
      then match span_digits r with
           | (EmptyString, _) => s
           | (_, rest) => rest
           end
      else s
  | EmptyString => s
  end.

(** [raw.match(/^@@ -\d+(?:,\d+)? \+(\d+)(?:,\d+)? @@/)]: the text of
    capture group 1 when the line matches. *)
Definition hunkMatch (raw : string) : option string :=
  r1 ← strip_prefix "@@ -" raw;
  let '(oldStart, r2) := span_digits r1 in
  if String.eqb oldStart "" then None else
  r3 ← strip_prefix " +" (skip_count r2);
  let '(newStart, r4) := span_digits r3 in
  if String.eqb newStart "" then None else
  _ ← strip_prefix " @@" (skip_count r4);
  Some newStart.

(** The two locals of [parsePatchLines] that the loop updates. *)
Record PatchState := {
  lines : gset Z;
  currentLine : Z
}.

Definition initPatchState : PatchState :=
  {| lines := ∅; currentLine := 0 |}.

(** One iteration of the [for (const raw of patchLines)] loop. *)
Definition patchStep (st : PatchState) (raw : string) : PatchState :=
  match hunkMatch raw with
  | Some newStart =>
      {| lines := lines st; currentLine := parseInt newStart |}
  | None =>
      if startsWith raw "+" then
        {| lines := {[ currentLine st ]} ∪ lines st;
           currentLine := currentLine st + 1 |}
      else if startsWith raw "-" then st
      else {| lines := lines st; currentLine := currentLine st + 1 |}
  end.

(** The loop of [parsePatchLines] over a list of raw lines. *)
Definition runPatch (st : PatchState) (raws : list string) : PatchState :=
  foldl patchStep st raws.

Definition parsePatchState (patch : string) : PatchState :=
  runPatch initPatchState (split_nl patch).

Definition parsePatchLines (patch : string) : gset Z :=
  lines (parsePatchState patch).

(** [file.status === 'removed'] or [!file.patch]: the two [continue]s. *)
Definition skipped (file : PullFile) : bool :=
  String.eqb (status file) "removed" || negb (truthy (patch file)).

(** One iteration of the loop of [parseChangedLines]. *)
Definition changedStep (result : gmap string (gset Z)) (file : PullFile)
  : gmap string (gset Z) :=
  if String.eqb (status file) "removed" then result
  else match patch file with
       | None => result
       | Some p =>
           if String.eqb p "" then result
           else <[ filename file := parsePatchLines p ]> result
       end.

Definition parseChangedLines (files : list PullFile) : gmap string (gset Z) :=
  foldl changedStep ∅ files.

(** A raw line is a hunk header whose new-side start is at least 1, or is
    no hunk header at all. *)
Definition headerFrom1 (raw : string) : bool :=
  match hunkMatch raw with
  | Some newStart => 1 <=? parseInt newStart
  | None => true
  end.

(** The shape of the patches the platform sends: the first line is a hunk
    header and every hunk header starts the new side at line 1 or later. *)
Definition wellFormed (patch : string) : bool :=
  match split_nl patch with
  | first :: _ => bool_decide (is_Some (hunkMatch first))
  | [] => false
  end && forallb headerFrom1 (split_nl patch).

(** Lines that do not begin with the removed-line marker: the ones that
    advance the cursor when they are no hunk header. *)
Definition advancing (raws : list string) : list string :=
  filter (λ raw, startsWith raw "-" = false) raws.

(** The loop invariant: the cursor and every recorded line are at least
    [lo]. *)
Definition above (lo : Z) (st : PatchState) : Prop :=
  lo ≤ currentLine st ∧ ∀ n, n ∈ lines st → lo ≤ n.

(** The patch of the worked example, line by line. *)
Definition exampleRaws : list string :=
  ["@@ -1,2 +1,3 @@"; " context"; "+added"; " context"].

Definition examplePatch : string := join nl exampleRaws.

End Diff.

(** ** analyzer.ts *)

Module Analyzer.
Import Js.

(** The union type ['error' | 'warning' | 'hint']. *)
Inductive Severity := error | warning | hint.

Record ReviewComment := {
  path : string;
  line : Z;
  code : string;
  body : string;
  severity : Severity
}.

(** One diagnostic of the engine: [{line, column, code, message}]. *)
Record Diagnostic := {
  d_line : Z;
  d_column : Z;
  d_code : string;
  d_message : string
}.

(** What the engine returns: [{diagnostics, parseError: string | none}]. *)
Record AnalysisResult := {
  diagnostics : list Diagnostic;
  parseError : option string
}.

(** A call either returns a value or throws. *)
Inductive Outcome (A : Type) :=
  | Returned (a : A)
  | Threw.
Arguments Returned {A} a.
Arguments Threw {A}.

Record Options := {
  strict : bool;
  fixpoint : bool
}.

Definition ERROR_CODES : gset string :=
  list_to_set [
    "W_INNER_DIM_MISMATCH";
    "W_ELEMENTWISE_MISMATCH";
    "W_CONSTRAINT_CONFLICT";
    "W_HORZCAT_ROW_MISMATCH";
    "W_VERTCAT_COL_MISMATCH";
    "W_RESHAPE_MISMATCH";
    "W_INDEX_OUT_OF_BOUNDS";
    "W_DIVISION_BY_ZERO";
    "W_ARITHMETIC_TYPE_MISMATCH";
    "W_TRANSPOSE_TYPE_MISMATCH";
    "W_NEGATE_TYPE_MISMATCH";
    "W_CONCAT_TYPE_MISMATCH";
    "W_INDEX_ASSIGN_TYPE_MISMATCH";
    "W_POSSIBLY_NEGATIVE_DIM";
    "W_FUNCTION_ARG_COUNT_MISMATCH";
    "W_LAMBDA_ARG_COUNT_MISMATCH";
    "W_MULTI_ASSIGN_COUNT_MISMATCH";
    "W_MULTI_ASSIGN_NON_CALL";
    "W_MULTI_ASSIGN_BUILTIN";
    "W_PROCEDURE_IN_EXPR";
    "W_BREAK_OUTSIDE_LOOP";
    "W_CONTINUE_OUTSIDE_LOOP";
    "W_STRICT_MODE";
    "W_MLDIVIDE_DIM_MISMATCH";
    "W_MATRIX_POWER_NON_SQUARE"
  ].

Definition STRICT_ONLY_CODES : gset string :=
  list_to_set [
    "W_UNKNOWN_FUNCTION";
    "W_RECURSIVE_FUNCTION";
    "W_RECURSIVE_LAMBDA";
    "W_UNSUPPORTED_BUILTIN";
    "W_UNSUPPORTED_SYNTAX";
    "W_UNSUPPORTED_INDEX_TYPE";
    "W_UNSUPPORTED_FIELD_BASE";
    "W_UNSUPPORTED_HANDLE_TARGET";
    "W_UNSUPPORTED_SWITCH_EXPR";
    "W_END_OUTSIDE_INDEXING";
    "W_EXTERNAL_PARSE_ERROR";
    "W_STRUCT_FIELD_NOT_FOUND";
    "W_CELL_TYPE_MISMATCH";
    "W_INDEX_INTO_NON_MATRIX";
    "W_NON_MATRIX_MULTIPLICATION";
    "W_SUBSCRIPT_ON_NON_INDEXABLE";
    "W_FIELD_ACCESS_ON_NON_STRUCT";
    "W_UNKNOWN_SIZE_FUNCTION";
    "W_GLOBAL_NOT_SUPPORTED"
  ].

(** [set.has(x)]. *)
Definition has (set : gset string) (x : string) : bool :=
  bool_decide (x ∈ set).

Definition classifySeverity (code : string) : Severity :=
  if has ERROR_CODES code then error
  else if startsWith code "W_UNSUPPORTED_" then hint
  else warning.

(** The body of the loop over [result.diagnostics]: [None] is the
    [continue], [Some c] the comment that is pushed. *)
Definition commentOf (filePath : string) (options : Options) (d : Diagnostic)
  : option ReviewComment :=
  if negb (strict options) && has STRICT_ONLY_CODES (d_code d) then None
  else Some {| path := filePath;
               line := d_line d;
               code := d_code d;
               body := d_message d;
               severity := classifySeverity (d_code d) |}.

Definition pushComment (filePath : string) (options : Options)
    (comments : list ReviewComment) (d : Diagnostic) : list ReviewComment :=
  match commentOf filePath options d with
  | None => comments
  | Some c => (comments ++ [c])%list
  end.

Section WithEngine.

(** The engine, [interop.analyzeSource(content, fixpoint, strict,
    siblings)], is an external collaborator: any function of its
    arguments that returns a result or throws. *)
Variable analyzeSource :
  string → bool → bool → list (string * string) → Outcome AnalysisResult.

Definition analyzeFile (filePath content : string)
    (siblings : list (string * string)) (options : Options)
  : Outcome (list ReviewComment) :=
  match analyzeSource content (fixpoint options) (strict options) siblings with
  | Threw =>
      Returned [ {| path := filePath;
                    line := 1;
                    code := "W_INTERNAL_ERROR";
                    body := "Conformal: internal analysis error on this file.";
                    severity := warning |} ]
  | Returned result =>
      if truthy (parseError result) then
        Returned [ {| path := filePath;
                      line := 1;
                      code := "W_PARSE_ERROR";
                      body := "Conformal: syntax error: "
                              ++ default "" (parseError result);
                      severity := error |} ]
      else
        Returned (foldl (pushComment filePath options) [] (diagnostics result))
  end.

End WithEngine.

(** An engine that throws on the empty source and reports a parse error
    on every other one. *)
Definition failingEngine (content : string) (_ _ : bool)
    (_ : list (string * string)) : Outcome AnalysisResult :=
  if String.eqb content "" then Threw
  else Returned {| diagnostics := []; parseError := Some "unexpected end" |}.

End Analyzer.

(** ** review.ts *)

Module Review.
Import Js Analyzer.

Definition formatCommentBody (c : ReviewComment) : string :=
  let icon :=
    match severity c with
    | error => ":x:"
    | warning => ":warning:"
    | hint => ":information_source:"
    end in
  icon ++ " **Conformal** `" ++ code c ++ "`" ++ nl ++ nl ++ body c.

(** One entry of the [comments] field of the create-review call. *)
Record InlineComment := {
  ic_path : string;
  ic_line : Z;
  ic_side : string;
  ic_body : string
}.

(** The argument of the single [createReview] call. *)
Record ReviewSubmission := {
  rs_owner : string;
  rs_repo : string;
  rs_pull_number : Z;
  rs_commit_id : string;
  rs_event : string;
  rs_body : option string;
  rs_comments : list InlineComment
}.

(** [fileLines && fileLines.has(c.line)] for
    [fileLines = changedLines.get(c.path)]. *)
Definition onDiff (changedLines : gmap string (gset Z)) (c : ReviewComment)
  : bool :=
  match changedLines !! path c with
  | Some fileLines => bool_decide (line c ∈ fileLines)
  | None => false
  end.

(** One iteration of the partition loop on the pair [(inline, outOfDiff)]. *)
Definition splitStep (changedLines : gmap string (gset Z))
    (acc : list ReviewComment * list ReviewComment) (c : ReviewComment)
  : list ReviewComment * list ReviewComment :=
  if onDiff changedLines c then ((acc.1 ++ [c])%list, acc.2)
  else (acc.1, (acc.2 ++ [c])%list).

Definition splitComments (changedLines : gmap string (gset Z))
    (comments : list ReviewComment)
  : list ReviewComment * list ReviewComment :=
  foldl (splitStep changedLines) ([], []) comments.

Definition inlineToPost (inline : list ReviewComment) : list ReviewComment :=
  take 50 inline.

Definition overflowOf (inline : list ReviewComment) : Z :=
  len inline - len (inlineToPost inline).

Definition overflowLine (overflow : Z) : string :=
  "... and " ++ pretty overflow ++ " more warnings not shown inline.".

Definition outOfDiffLine (c : ReviewComment) : string :=
  "- `" ++ path c ++ ":" ++ pretty (line c) ++ "`: " ++ body c.

Definition outOfDiffSummary (outOfDiffToShow : list ReviewComment) : string :=
  "<details><summary>" ++ pretty (len outOfDiffToShow)
    ++ " warnings on unchanged lines</summary>" ++ nl ++ nl
    ++ join nl (map outOfDiffLine (take 20 outOfDiffToShow))
    ++ (if 20 <? len outOfDiffToShow
        then nl ++ "- ... and " ++ pretty (len outOfDiffToShow - 20) ++ " more"
        else "")
    ++ nl ++ "</details>".

Definition outOfDiffToShow (filterToDiff : bool)
    (outOfDiff : list ReviewComment) : list ReviewComment :=
  if filterToDiff then outOfDiff else [].

(** The array [bodyParts] once both conditional pushes have run. *)
Definition bodyParts (inline outOfDiff : list ReviewComment)
    (filterToDiff : bool) : list string :=
  ((if 0 <? overflowOf inline then [overflowLine (overflowOf inline)] else [])
   ++
   (if 0 <? len (outOfDiffToShow filterToDiff outOfDiff)
    then [outOfDiffSummary (outOfDiffToShow filterToDiff outOfDiff)]
    else []))%list.

Definition allInline (changedLines : gmap string (gset Z))
    (inline outOfDiff : list ReviewComment) (filterToDiff : bool)
  : list ReviewComment :=
  if filterToDiff then inlineToPost inline
  else take 50 (inlineToPost inline
                ++ filter (λ c, onDiff changedLines c = true) outOfDiff)%list.

Definition toInline (c : ReviewComment) : InlineComment :=
  {| ic_path := path c;
     ic_line := line c;
     ic_side := "RIGHT";
     ic_body := formatCommentBody c |}.

(** [bodyParts.join('\n\n') || undefined]. *)
Definition bodyText (parts : list string) : option string :=
  let s := join (nl ++ nl) parts in
  if String.eqb s "" then None else Some s.

(** The final value of [allInline] in a run of [postReview]. *)
Definition postedInline (changedLines : gmap string (gset Z))
    (comments : list ReviewComment) (filterToDiff : bool)
  : list ReviewComment :=
  let split := splitComments changedLines comments in
  allInline changedLines split.1 split.2 filterToDiff.

(** The final value of [bodyParts] in a run of [postReview]. *)
Definition composedParts (changedLines : gmap string (gset Z))
    (comments : list ReviewComment) (filterToDiff : bool) : list string :=
  let split := splitComments changedLines comments in
  bodyParts split.1 split.2 filterToDiff.

(** [postReview]: [None] when the function returns without calling the
    platform, [Some payload] for the one [createReview] call it makes. *)
Definition postReview (owner repo : string) (pullNumber : Z)
    (commitSha : string) (comments : list ReviewComment)
    (changedLines : gmap string (gset Z)) (filterToDiff : bool)
  : option ReviewSubmission :=
  let parts := composedParts changedLines comments filterToDiff in
  let posted := postedInline changedLines comments filterToDiff in
  if (len posted =? 0) && (len parts =? 0) then None
  else Some {| rs_owner := owner;
               rs_repo := repo;
               rs_pull_number := pullNumber;
               rs_commit_id := commitSha;
               rs_event := "COMMENT";
               rs_body := bodyText parts;
               rs_comments := map toInline posted |}.

(** The comments of a list that are inline-eligible, in order. *)
Definition eligible (changedLines : gmap string (gset Z))
    (comments : list ReviewComment) : list ReviewComment :=
  filter (λ c, onDiff changedLines c = true) comments.

(** The comments of a list that are out of the diff, in order. *)
Definition offDiff (changedLines : gmap string (gset Z))
    (comments : list ReviewComment) : list ReviewComment :=
  filter (λ c, onDiff changedLines c ≠ true) comments.

(** Sixty comments on one changed line. *)
Definition sixtyComments : list ReviewComment :=
  replicate 60 {| path := "a.m"; line := 2; code := "W_RESHAPE_MISMATCH";
                  body := "reshape"; severity := error |}.

End Review.

(** ** Shapes of patch lines *)

Module Shapes.
Import Js Diff.

(** A non-empty string of decimal digits: what [\d+] matches in full. *)
Definition is_number (s : string) : bool :=
  all_digits s && negb (String.eqb s "").

(** The text an optional count [(?:,\d+)?] stands for. *)
Definition countText (count : option string) : string :=
  match count with
  | Some ds => "," ++ ds
  | None => ""
  end.

Definition is_count (count : option string) : bool :=
  match count with
  | Some ds => is_number ds
  | None => true
  end.

(** A hunk header line: [@@ -oldStart[,oldCount] +newStart[,newCount] @@]
    followed by any text. *)
Definition headerText (oldStart : string) (oldCount : option string)
    (newStart : string) (newCount : option string) (tail : string) : string :=
  "@@ -" ++ oldStart ++ countText oldCount ++ " +" ++ newStart
    ++ countText newCount ++ " @@" ++ tail.

(** The next character, if any, is no digit. *)
Definition digit_free_head (s : string) : Prop :=
  match s with
  | String c _ => is_digit c = false
  | EmptyString => True
  end.

End Shapes.

(** ** main.ts *)

Module Main.
Import Js Diff Analyzer Review.

(** [s.endsWith(p)]: some suffix of [s] is [p]. *)
Fixpoint endsWith (s p : string) : bool :=
  String.eqb s p
  || match s with
     | String _ r => endsWith r p
     | EmptyString => false
     end.

(** [s.includes(c)] for a one-character needle. *)
Fixpoint includesChar (s : string) (c : ascii) : bool :=
  match s with
  | EmptyString => false
  | String a r => Ascii.eqb a c || includesChar r c
  end.

(** [entry.replace(/\.m$/, '')]: a trailing [.m] is removed. *)
Fixpoint replaceTrailingM (entry : string) : string :=
  match entry with
  | EmptyString => ""
  | String c r =>
      if String.eqb entry ".m" then "" else String c (replaceTrailingM r)
  end.

(** The double quote as a one-character string. *)
Definition dquote : string := String "034"%char "".

(** The fields of the configuration that [run] reads. *)
Record ActionConfig := {
  cfg_strict : bool;
  cfg_fixpoint : bool;
  cfg_filterToDiff : bool;
  cfg_failOnError : bool;
  cfg_paths : string;
  cfg_token : string
}.

(** What [run] reads from the pull-request event. *)
Record PullContext := {
  pr_owner : string;
  pr_repo : string;
  pr_number : Z;
  pr_head_sha : string
}.

(** A call of [core.info], [core.warning] or [core.error]. *)
Inductive LogEntry :=
  | Info (message : string)
  | Warning (message : string)
  | Error (message : string).

(** The outcome of the platform's create-review call: it resolves, or it
    rejects with an error that has a message and may have a status. *)
Inductive CallResult :=
  | Resolved
  | Rejected (status : option Z) (message : string).

(** The locals the analysis loop of [run] updates, and its log. *)
Record Collected := {
  allComments : list ReviewComment;
  filesAnalyzed : Z;
  logged : list LogEntry
}.

(** What a run leaves behind: the outputs set, the log, the create-review
    call it made, if any, and the message of [core.setFailed], if any. *)
Record RunResult := {
  outputs : list (string * string);
  log : list LogEntry;
  reviewCall : option ReviewSubmission;
  failed : option string
}.

(** The pagination loop of [run]: [None] when [fuel] iterations were not
    enough. *)
Fixpoint fetchChangedFiles {A} (fuel : nat) (listFiles : Z → Outcome (list A))
    (changedFiles : list A) (page : Z) : option (Outcome (list A)) :=
  match fuel with
  | O => None
  | S fuel' =>
      match listFiles page with
      | Threw => Some Threw
      | Returned data =>
          if len data <? 100
          then Some (Returned (changedFiles ++ data)%list)
          else fetchChangedFiles fuel' listFiles (changedFiles ++ data)%list
                 (page + 1)
      end
  end.

(** Node's [path] and [fs] modules, the engine, the glob matcher and the
    platform call are external collaborators of [run]. *)
Record Env := {
  pathJoin : string → string → string;
  dirname : string → string;
  basename : string → string;
  readdirSync : string → Outcome (list string);
  readFileSync : string → Outcome string;
  analyzeSource :
    string → bool → bool → list (string * string) → Outcome AnalysisResult;
  minimatch : string → string → bool;
  createReview : ReviewSubmission → CallResult
}.

(** One iteration of the loop over the directory entries. *)
Definition siblingStep (env : Env) (dir baseName : string)
    (siblings : list (string * string)) (entry : string)
  : list (string * string) :=
  if String.eqb entry baseName then siblings
  else if negb (endsWith entry ".m") then siblings
  else match readFileSync env (pathJoin env dir entry) with
       | Returned content =>
           (siblings ++ [(replaceTrailingM entry, content)])%list
       | Threw => siblings
       end.

Definition readSiblings (env : Env) (filePath workspace : string)
  : list (string * string) :=
  let fullPath := pathJoin env workspace filePath in
  let dir := dirname env fullPath in
  let baseName := basename env fullPath in
  match readdirSync env dir with
  | Returned entries => foldl (siblingStep env dir baseName) [] entries
  | Threw => []
  end.

(** The predicate of [changedFiles.filter(...)]. *)
Definition isMFile (env : Env) (paths : string) (f : PullFile) : bool :=
  if String.eqb (status f) "removed" then false
  else if negb (endsWith (filename f) ".m") then false
  else minimatch env (filename f) paths.

Definition mFilesOf (env : Env) (paths : string) (changedFiles : list PullFile)
  : list PullFile :=
  filter (λ f, isMFile env paths f = true) changedFiles.

(** A file of the loop is analysed when it can be read and its content
    has no NUL character. *)
Definition analysable (env : Env) (workspace : string) (file : PullFile) : bool :=
  match readFileSync env (pathJoin env workspace (filename file)) with
  | Returned content => negb (includesChar content "000"%char)
  | Threw => false
  end.

(** One iteration of the loop over [mFiles]. *)
Definition collectStep (env : Env) (config : ActionConfig) (workspace : string)
    (acc : Collected) (file : PullFile) : Outcome Collected :=
  let filePath := filename file in
  let fullPath := pathJoin env workspace filePath in
  match readFileSync env fullPath with
  | Threw =>
      Returned {| allComments := allComments acc;
                  filesAnalyzed := filesAnalyzed acc;
                  logged := (logged acc
                             ++ [Warning ("Could not read " ++ filePath
                                          ++ ", skipping.")])%list |}
  | Returned content =>
      if includesChar content "000"%char then
        Returned {| allComments := allComments acc;
                    filesAnalyzed := filesAnalyzed acc;
                    logged := (logged acc
                               ++ [Info ("Skipping binary file: "
                                         ++ filePath)])%list |}
      else
        match analyzeFile (analyzeSource env) filePath content
                (readSiblings env filePath workspace)
                {| strict := cfg_strict config;
                   fixpoint := cfg_fixpoint config |} with
        | Threw => Threw
        | Returned comments =>
            Returned {| allComments := (allComments acc ++ comments)%list;
                        filesAnalyzed := filesAnalyzed acc + 1;
                        logged := logged acc |}
        end
  end.

Fixpoint collect (env : Env) (config : ActionConfig) (workspace : string)
    (acc : Collected) (mFiles : list PullFile) : Outcome Collected :=
  match mFiles with
  | [] => Returned acc
  | file :: rest =>
      match collectStep env config workspace acc file with
      | Threw => Threw
      | Returned acc' => collect env config workspace acc' rest
      end
  end.

(** [c.severity === 'error']. *)
Definition isError (c : ReviewComment) : bool :=
  match severity c with
  | error => true
  | _ => false
  end.

(** [allComments.filter(c => c.severity === 'error').length]. *)
Definition errorCountOf (comments : list ReviewComment) : Z :=
  len (filter (λ c, isError c = true) comments).

(** The [try { await postReview(...) } catch (err) { ... }] of [run]: the
    create-review call made, if any, and what is logged. *)
Definition tryPostReview (env : Env) (config : ActionConfig) (pr : PullContext)
    (comments : list ReviewComment) (changedLines : gmap string (gset Z))
  : option ReviewSubmission * list LogEntry :=
  match postReview (pr_owner pr) (pr_repo pr) (pr_number pr) (pr_head_sha pr)
          comments changedLines (cfg_filterToDiff config) with
  | None => (None, [Info "Posted review comments."])
  | Some submission =>
      match createReview env submission with
      | Resolved => (Some submission, [Info "Posted review comments."])
      | Rejected status message =>
          (Some submission,
           [Error (if bool_decide (status = Some 403)
                   then "conformal-action requires pull-requests: write permission. "
                        ++ "Add " ++ dquote
                        ++ "permissions: { pull-requests: write }" ++ dquote
                        ++ " to your workflow."
                   else "Failed to post review: " ++ message)])
      end
  end.

(** What [run] leaves behind when no [.m] file changed. *)
Definition nothingToAnalyze : RunResult :=
  {| outputs := [("total_warnings", "0"); ("error_count", "0");
                 ("files_analyzed", "0")];
     log := [Info "No .m files changed in this PR."];
     reviewCall := None;
     failed := None |}.

(** The part of [run] after the analysis loop: the outputs, the review and
    the failure status. *)
Definition conclude (env : Env) (config : ActionConfig) (pr : PullContext)
    (changedLines : gmap string (gset Z)) (col : Collected) : RunResult :=
  let errorCount := errorCountOf (allComments col) in
  let totalWarnings := len (allComments col) in
  let posted :=
    if 0 <? len (allComments col)
    then tryPostReview env config pr (allComments col) changedLines
    else (None, [Info "No warnings found. Clean!"]) in
  {| outputs := [("total_warnings", pretty totalWarnings);
                 ("error_count", pretty errorCount);
                 ("files_analyzed", pretty (filesAnalyzed col))];
     log := (logged col
             ++ [Info ("Analyzed " ++ pretty (filesAnalyzed col)
                       ++ " files: " ++ pretty totalWarnings
                       ++ " warnings (" ++ pretty errorCount
                       ++ " errors)")]
             ++ posted.2)%list;
     reviewCall := posted.1;
     failed := if cfg_failOnError config && (0 <? errorCount)
               then Some ("Conformal found " ++ pretty errorCount
                          ++ " error-severity warnings.")
               else None |}.

(** [run] from the filtering of the changed files on: the pull-request
    guard has passed and the file list has been fetched. *)
Definition runOn (env : Env) (config : ActionConfig) (pr : PullContext)
    (workspace : string) (changedFiles : list PullFile) : Outcome RunResult :=
  let mFiles := mFilesOf env (cfg_paths config) changedFiles in
  if len mFiles =? 0 then Returned nothingToAnalyze
  else
    let changedLines := parseChangedLines mFiles in
    match collect env config workspace
            {| allComments := []; filesAnalyzed := 0; logged := [] |}
            mFiles with
    | Threw => Threw
    | Returned col => Returned (conclude env config pr changedLines col)
    end.


End Main.

(** ** Sample inputs *)

Module Samples.
Import Js Diff Analyzer Review Main.

(** A second hunk, three added lines from line 10 on. *)
Definition secondHunk : string :=
  join nl ["@@ -9,0 +10,3 @@ function y = f(x)"; "+a"; "+b"; "+c"].

Definition solveFile : PullFile :=
  {| filename := "src/solve.m"; status := "modified";
     patch := Some examplePatch; previous_filename := None |}.

Definition readmeFile : PullFile :=
  {| filename := "README.md"; status := "modified";
     patch := Some examplePatch; previous_filename := None |}.

Definition oldFile : PullFile :=
  {| filename := "src/old.m"; status := "removed";
     patch := Some examplePatch; previous_filename := None |}.

(** An engine that reports one strict-only diagnostic and one error. *)
Definition twoDiagnostics : AnalysisResult :=
  {| diagnostics :=
       [ {| d_line := 1; d_column := 5; d_code := "W_UNKNOWN_FUNCTION";
            d_message := "unknown function g" |};
         {| d_line := 2; d_column := 1; d_code := "W_RESHAPE_MISMATCH";
            d_message := "reshape of 6 elements into 4" |} ];
     parseError := None |}.

Definition sampleEngine (_ : string) (_ _ : bool)
    (_ : list (string * string)) : Outcome AnalysisResult :=
  Returned twoDiagnostics.

(** A page of 100 changed files. *)
Definition fullPage : list PullFile := replicate 100 solveFile.

(** A listing with one full page followed by a short one. *)
Definition twoPages (page : Z) : Outcome (list PullFile) :=
  if page =? 1 then Returned fullPage else Returned [readmeFile].

(** A workspace with three [.m] files in [src], one of them unreadable,
    and a platform that rejects the review for lack of permission. *)
Definition sampleEnv : Env :=
  {| pathJoin := λ a b, a ++ "/" ++ b;
     dirname := λ _, "ws/src";
     basename := λ _, "solve.m";
     readdirSync := λ _, Returned ["solve.m"; "helper.m"; "notes.txt";
                                   "broken.m"];
     readFileSync := λ p, if String.eqb p "ws/src/broken.m" then Threw
                          else Returned "y = reshape(x, 2, 2);";
     analyzeSource := sampleEngine;
     minimatch := λ _ _, true;
     createReview := λ _, Rejected (Some 403) "Forbidden" |}.

Definition sampleConfig : ActionConfig :=
  {| cfg_strict := false; cfg_fixpoint := false; cfg_filterToDiff := true;
     cfg_failOnError := true; cfg_paths := "**/*.m"; cfg_token := "t" |}.

Definition samplePull : PullContext :=
  {| pr_owner := "octo"; pr_repo := "lab"; pr_number := 7;
     pr_head_sha := "c0ffee" |}.

End Samples.

(** * Properties *)

(** ** Diff line index *)

Module DiffFacts.
Import Js Diff.

Lemma span_digits_all_digits s : all_digits (span_digits s).1 = true.
Proof.
  induction s as [|c r IH]; simpl; [done|].
  destruct (is_digit c) eqn:Hc; [|done].
  destruct (span_digits r) as [ds rest]; simpl in *.
  by rewrite Hc, IH.
Qed.

Lemma is_digit_value c : is_digit c = true → 0 ≤ Z.of_nat (nat_of_ascii c) - 48.
Proof.
  unfold is_digit; intros [H1 _]%andb_prop.
  apply Nat.leb_le in H1. lia.
Qed.

Lemma parseInt_go_lower acc ds :
  all_digits ds = true → 0 ≤ acc → acc ≤ parseInt_go acc ds.
Proof.
  revert acc; induction ds as [|c r IH]; simpl; intros acc Hd Hacc; [lia|].
  apply andb_prop in Hd as [Hc Hr].
  pose proof (is_digit_value c Hc).
  etrans; [|apply IH; [done|lia]]. lia.
Qed.

Lemma parseInt_nonneg ds : all_digits ds = true → 0 ≤ parseInt ds.
Proof. intros Hd. by apply (parseInt_go_lower 0 ds). Qed.

Lemma hunkMatch_all_digits raw newStart :
  hunkMatch raw = Some newStart → all_digits newStart = true.
Proof.
  unfold hunkMatch; intros H.
  destruct (strip_prefix "@@ -" raw) as [r1|]; cbn [mbind option_bind] in H; [|done].
  destruct (span_digits r1) as [oldStart r2].
  destruct (String.eqb oldStart ""); [done|].
  destruct (strip_prefix " +" (skip_count r2)) as [r3|];
    cbn [mbind option_bind] in H; [|done].
  pose proof (span_digits_all_digits r3) as Hd.
  destruct (span_digits r3) as [ds r4].
  destruct (String.eqb ds ""); [done|].
  destruct (strip_prefix " @@" (skip_count r4));
    cbn [mbind option_bind] in H; [|done].
  by simplify_eq.
Qed.

Lemma hunkMatch_nonneg raw newStart :
  hunkMatch raw = Some newStart → 0 ≤ parseInt newStart.
Proof. intros H. eapply parseInt_nonneg, hunkMatch_all_digits, H. Qed.

Lemma patchStep_cases st raw :
  (∃ newStart, hunkMatch raw = Some newStart ∧
     patchStep st raw = {| lines := lines st; currentLine := parseInt newStart |})
  ∨ (hunkMatch raw = None ∧
     (patchStep st raw = {| lines := {[ currentLine st ]} ∪ lines st;
                            currentLine := currentLine st + 1 |}
      ∨ patchStep st raw = st
      ∨ patchStep st raw = {| lines := lines st;
                              currentLine := currentLine st + 1 |})).
Proof.
  unfold patchStep. destruct (hunkMatch raw) as [d|]; [left; eauto|right].
  split; [done|]. destruct (startsWith raw "+"); [auto|].
  destruct (startsWith raw "-"); auto.
Qed.

Lemma patchStep_above lo st raw :
  (∀ newStart, hunkMatch raw = Some newStart → lo ≤ parseInt newStart) →
  above lo st → above lo (patchStep st raw).
Proof.
  intros Hhdr [Hcur Hrec].
  destruct (patchStep_cases st raw) as [(d & Hd & ->)|[_ [->|[->| ->]]]];
    split; simpl; auto; try lia.
  intros n [->%elem_of_singleton|?]%elem_of_union; auto.
Qed.

Lemma runPatch_above lo raws st :
  Forall (λ raw, ∀ newStart, hunkMatch raw = Some newStart → lo ≤ parseInt newStart) raws →
  above lo st → above lo (runPatch st raws).
Proof.
  unfold runPatch. intros Hall; revert st.
  induction Hall as [|raw raws Hraw _ IH]; simpl; intros st Hst; [done|].
  by apply IH, patchStep_above.
Qed.

Lemma headerFrom1_spec raw newStart :
  headerFrom1 raw = true → hunkMatch raw = Some newStart → 1 ≤ parseInt newStart.
Proof. unfold headerFrom1. intros H Hm. rewrite Hm in H. by apply Z.leb_le. Qed.

Lemma startsWith_plus_minus raw :
  startsWith raw "+" = true → startsWith raw "-" = false.
Proof.
  unfold startsWith. destruct raw as [|c r]; cbn [strip_prefix]; [done|].
  by destruct (Ascii.eqb_spec "+" c) as [<-|].
Qed.

Lemma runPatch_no_header pre st :
  Forall (λ raw, hunkMatch raw = None) pre →
  currentLine (runPatch st pre) = currentLine st + len (advancing pre).
Proof.
  unfold runPatch, advancing, len. intros Hall; revert st.
  induction Hall as [|raw raws Hraw _ IH]; intros st; cbn [foldl].
  { rewrite filter_nil. simpl. lia. }
  rewrite IH. unfold patchStep. rewrite Hraw.
  destruct (startsWith raw "+") eqn:Hp.
  - rewrite filter_cons_True by by apply startsWith_plus_minus.
    cbn [currentLine length]. lia.
  - destruct (startsWith raw "-") eqn:Hm.
    + by rewrite filter_cons_False by congruence.
    + rewrite filter_cons_True by done. cbn [currentLine length]. lia.
Qed.

Lemma wellFormed_inv patch :
  wellFormed patch = true →
  ∃ first rest newStart,
    split_nl patch = first :: rest ∧ hunkMatch first = Some newStart
    ∧ 1 ≤ parseInt newStart ∧ Forall (λ raw, headerFrom1 raw = true) rest.
Proof.
  unfold wellFormed. intros [Hfirst Hall]%andb_prop.
  destruct (split_nl patch) as [|first rest]; [done|].
  apply bool_decide_eq_true in Hfirst as [newStart Hm].
  apply Is_true_eq_left, forallb_True, Forall_cons in Hall as [Hh Hrest].
  exists first, rest, newStart. repeat split; [done| |].
  - apply Is_true_eq_true in Hh. by eapply headerFrom1_spec.
  - eapply Forall_impl; [exact Hrest|]. intros raw. apply Is_true_eq_true.
Qed.

Lemma changedStep_skipped result file :
  skipped file = true → changedStep result file = result.
Proof.
  unfold skipped, changedStep, truthy.
  destruct (String.eqb (status file) "removed"); [done|].
  destruct (patch file) as [p|]; [|done].
  by destruct (String.eqb p "").
Qed.

Lemma changedStep_kept result file :
  skipped file = false →
  ∃ lns, changedStep result file = <[ filename file := lns ]> result.
Proof.
  unfold skipped, changedStep, truthy.
  destruct (String.eqb (status file) "removed"); [done|].
  destruct (patch file) as [p|]; [|done].
  destruct (String.eqb p ""); [done|]. eauto.
Qed.

Lemma skipped_removed_or_patchless file :
  status file = "removed" ∨ patch file = None → skipped file = true.
Proof.
  unfold skipped. intros [->| ->]; [done|]. simpl. apply orb_true_r.
Qed.

(** A key is absent from the fold exactly when it was absent at the start
    and every file that carries it is skipped. *)
Lemma foldl_changedStep_lookup_None files result p :
  foldl changedStep result files !! p = None
  ↔ result !! p = None
    ∧ Forall (λ g, filename g = p → skipped g = true) files.
Proof.
  revert result. induction files as [|file files IH]; intros result;
    cbn [foldl].
  { split; [by intros ?; split|by intros [? _]]. }
  rewrite IH, Forall_cons. destruct (skipped file) eqn:Hs.
  - rewrite changedStep_skipped by done. tauto.
  - destruct (changedStep_kept result file Hs) as [lns ->].
    destruct (decide (filename file = p)) as [<-|Hne].
    + rewrite lookup_insert_eq. split; [by intros [? _]|].
      intros (_ & Hf & _). by specialize (Hf eq_refl).
    + rewrite lookup_insert_ne by done. tauto.
Qed.

(** C1 (amended). Every line number that [parsePatchLines] records is a
    non-negative integer, and it is positive for every patch whose first
    line is a valid hunk header and whose hunk headers all start the new
    side at line 1 or later. On content lines that precede any hunk header
    the cursor starts at 0 and is advanced by one by every line that does
    not begin with the removed-line marker. *)
Theorem recorded_lines_nonneg_and_positive_when_well_formed :
  (∀ patch n, n ∈ parsePatchLines patch → 0 ≤ n)
  ∧ (∀ patch n,
       wellFormed patch = true → n ∈ parsePatchLines patch → 0 < n)
  ∧ (∀ pre,
       Forall (λ raw, hunkMatch raw = None) pre →
       currentLine (runPatch initPatchState pre) = len (advancing pre)).
Proof.
  split; [|split].
  - intros patch n. unfold parsePatchLines, parsePatchState.
    assert (above 0 (runPatch initPatchState (split_nl patch))) as [_ H];
      [|by apply H].
    apply runPatch_above.
    + apply Forall_forall. intros raw _ newStart. apply hunkMatch_nonneg.
    + split; simpl; [lia|]. intros m Hm. by apply not_elem_of_empty in Hm.
  - intros patch n Hwf Hn.
    destruct (wellFormed_inv patch Hwf) as (first & rest & d & Hs & Hm & Hd & Hr).
    unfold parsePatchLines, parsePatchState in Hn. rewrite Hs in Hn.
    unfold runPatch in Hn. cbn [foldl] in Hn.
    assert (above 1 (runPatch (patchStep initPatchState first) rest))
      as [_ H]; [|specialize (H n Hn); lia].
    apply runPatch_above.
    + eapply Forall_impl; [exact Hr|]. intros raw Hraw newStart.
      by apply headerFrom1_spec.
    + unfold patchStep. rewrite Hm. split; simpl; [done|].
      intros m Hm'. by apply not_elem_of_empty in Hm'.
  - intros pre Hpre. by rewrite runPatch_no_header.
Qed.

Lemma recorded_lines_nonneg_and_positive_when_well_formed_witness :
  wellFormed examplePatch = true
  ∧ 2 ∈ parsePatchLines examplePatch
  ∧ 0 < 2
  ∧ Forall (λ raw, hunkMatch raw = None) [" context"; "+added"]
  ∧ currentLine (runPatch initPatchState [" context"; "+added"]) = 2.
Proof.
  assert (wellFormed examplePatch = true) as Hwf by (vm_compute; reflexivity).
  assert (2 ∈ parsePatchLines examplePatch) as Hin.
  { replace (parsePatchLines examplePatch) with ({[2]} : gset Z)
      by (vm_compute; reflexivity).
    by apply elem_of_singleton. }
  assert (Forall (λ raw, hunkMatch raw = None) [" context"; "+added"]) as Hpre
    by (repeat constructor).
  split; [exact Hwf|]. split; [exact Hin|]. split; [|split; [exact Hpre|]].
  - exact (proj1 (proj2 recorded_lines_nonneg_and_positive_when_well_formed)
             examplePatch 2 Hwf Hin).
  - exact (proj2 (proj2 recorded_lines_nonneg_and_positive_when_well_formed)
             _ Hpre).
Defined.

(** C1 (as stated) fails: an added line that precedes every hunk header is
    recorded at the cursor's initial value, 0. *)
Lemma added_line_before_header_records_zero :
  ¬ (∀ n : Z, n ∈ parsePatchLines "+added" → 0 < n).
Proof.
  intros H. specialize (H 0).
  replace (parsePatchLines "+added") with ({[0]} : gset Z) in H
    by (vm_compute; reflexivity).
  specialize (H ltac:(by apply elem_of_singleton)). lia.
Qed.

(** C7. The patch [@@ -1,2 +1,3 @@\n context\n+added\n context] yields the
    line set [{2}]: the header sets the cursor to 1, the first context line
    advances it to 2, the added line records 2 and advances the cursor to
    3, and the last context line records nothing. *)
Theorem example_patch_records_exactly_line_2 :
  split_nl examplePatch = exampleRaws
  ∧ parsePatchLines examplePatch = {[2]}
  ∧ runPatch initPatchState (take 1 exampleRaws)
    = {| lines := ∅; currentLine := 1 |}
  ∧ runPatch initPatchState (take 2 exampleRaws)
    = {| lines := ∅; currentLine := 2 |}
  ∧ runPatch initPatchState (take 3 exampleRaws)
    = {| lines := {[2]}; currentLine := 3 |}
  ∧ runPatch initPatchState (take 4 exampleRaws)
    = {| lines := {[2]}; currentLine := 4 |}
  ∧ parseChangedLines
      [ {| filename := "src/solve.m"; status := "modified";
           patch := Some examplePatch; previous_filename := None |} ]
    = {[ "src/solve.m" := {[2]} ]}.
Proof. repeat split; vm_compute; reflexivity. Qed.

(** C9. A file with status [removed] or without a patch contributes no
    entry to the map of [parseChangedLines]: the map is the one computed
    from the other files, and when no other file of the list that has a
    patch and is not removed carries the same name, the path is an absent
    key. *)
Theorem removed_or_patchless_file_contributes_no_entry
    (before after : list PullFile) (file : PullFile) :
  status file = "removed" ∨ patch file = None →
  parseChangedLines (before ++ file :: after)%list
  = parseChangedLines (before ++ after)%list
  ∧ ((∀ g, g ∈ (before ++ after)%list → filename g = filename file →
           skipped g = true) →
     parseChangedLines (before ++ file :: after)%list !! filename file = None).
Proof.
  intros Hskip%skipped_removed_or_patchless.
  assert (parseChangedLines (before ++ file :: after)%list
          = parseChangedLines (before ++ after)%list) as Heq.
  { unfold parseChangedLines. rewrite !foldl_app. cbn [foldl].
    by rewrite changedStep_skipped. }
  split; [done|]. intros Hothers. rewrite Heq.
  apply foldl_changedStep_lookup_None. split; [apply lookup_empty|].
  by apply Forall_forall.
Qed.

Lemma removed_or_patchless_file_contributes_no_entry_witness :
  parseChangedLines
    [ {| filename := "a.m"; status := "modified";
         patch := Some examplePatch; previous_filename := None |};
      {| filename := "b.m"; status := "removed";
         patch := Some examplePatch; previous_filename := None |} ]
  !! "b.m" = None.
Proof.
  refine (proj2 (removed_or_patchless_file_contributes_no_entry
            [ {| filename := "a.m"; status := "modified";
                 patch := Some examplePatch; previous_filename := None |} ]
            []
            {| filename := "b.m"; status := "removed";
               patch := Some examplePatch; previous_filename := None |}
            (or_introl eq_refl)) _).
  intros g Hg Heq. apply list_elem_of_singleton in Hg. subst g. discriminate.
Defined.

End DiffFacts.

(** ** Diagnostic classifier *)

Module AnalyzerFacts.
Import Js Analyzer.

Lemma has_true set x : has set x = true ↔ x ∈ set.
Proof. unfold has. apply bool_decide_eq_true. Qed.

Lemma has_false set x : has set x = false ↔ x ∉ set.
Proof. unfold has. apply bool_decide_eq_false. Qed.

(** The loop over the diagnostics keeps, in order, the comments of the
    diagnostics that are not skipped. *)
Lemma foldl_pushComment filePath options ds acc :
  foldl (pushComment filePath options) acc ds
  = (acc ++ omap (commentOf filePath options) ds)%list.
Proof.
  revert acc. induction ds as [|d ds IH]; intros acc; cbn [foldl].
  { by rewrite app_nil_r. }
  rewrite IH. unfold pushComment.
  change (omap (commentOf filePath options) (d :: ds))
    with (match commentOf filePath options d with
          | Some c => c :: omap (commentOf filePath options) ds
          | None => omap (commentOf filePath options) ds
          end).
  destruct (commentOf filePath options d) as [c|]; [|done].
  by rewrite <- app_assoc.
Qed.

(** C3. The classifier decides in order: a strict-only code is invisible
    when strict mode is off; otherwise a code of the error set is an
    error, otherwise a code with the prefix [W_UNSUPPORTED_] is a hint,
    otherwise it is a warning. [W_INDEX_OUT_OF_BOUNDS] is an error,
    [W_UNSUPPORTED_SYNTAX] is a hint in strict mode and invisible outside
    it, and a code outside both sets and without the prefix is a visible
    warning: every code is classified. *)
Theorem classifier_decision_order
    (filePath : string) (options : Options) (d : Diagnostic) :
  (d_code d ∈ STRICT_ONLY_CODES → strict options = false →
     commentOf filePath options d = None)
  ∧ (¬ (d_code d ∈ STRICT_ONLY_CODES ∧ strict options = false) →
     ∃ c, commentOf filePath options d = Some c
       ∧ path c = filePath ∧ line c = d_line d ∧ code c = d_code d
       ∧ body c = d_message d
       ∧ severity c =
           (if decide (d_code d ∈ ERROR_CODES) then error
            else if startsWith (d_code d) "W_UNSUPPORTED_" then hint
            else warning))
  ∧ (d_code d = "W_INDEX_OUT_OF_BOUNDS" →
     severity <$> commentOf filePath options d = Some error)
  ∧ (d_code d = "W_UNSUPPORTED_SYNTAX" →
     severity <$> commentOf filePath options d
     = if strict options then Some hint else None)
  ∧ (d_code d ∉ STRICT_ONLY_CODES → d_code d ∉ ERROR_CODES →
     startsWith (d_code d) "W_UNSUPPORTED_" = false →
     severity <$> commentOf filePath options d = Some warning).
Proof.
  unfold commentOf, classifySeverity.
  split; [|split; [|split; [|split]]].
  - intros Hs%has_true ->. by rewrite Hs.
  - intros Hvis.
    destruct (negb (strict options) && has STRICT_ONLY_CODES (d_code d))
      eqn:Hskip.
    { apply andb_prop in Hskip as [Hstrict Hs%has_true].
      destruct Hvis. split; [done|]. by destruct (strict options). }
    eexists; split; [done|]. do 4 (split; [done|]). cbn [severity].
    unfold has. destruct (decide (d_code d ∈ ERROR_CODES)).
    + by rewrite bool_decide_eq_true_2.
    + by rewrite bool_decide_eq_false_2.
  - intros ->. by destruct (strict options).
  - intros ->. by destruct (strict options).
  - intros Hs%has_false He%has_false Hp.
    by rewrite Hs, He, Hp, andb_false_r.
Qed.

Lemma classifier_decision_order_witness :
  commentOf "a.m" {| strict := false; fixpoint := false |}
     {| d_line := 3; d_column := 1; d_code := "W_UNSUPPORTED_SYNTAX";
        d_message := "m" |}
  = None
  ∧ severity <$> commentOf "a.m" {| strict := false; fixpoint := false |}
      {| d_line := 3; d_column := 1; d_code := "W_SOMETHING_NEW";
         d_message := "m" |}
    = Some warning.
Proof.
  split.
  - refine (proj1 (classifier_decision_order "a.m"
              {| strict := false; fixpoint := false |}
              {| d_line := 3; d_column := 1; d_code := "W_UNSUPPORTED_SYNTAX";
                 d_message := "m" |}) _ eq_refl).
    apply has_true. vm_compute. reflexivity.
  - refine (proj2 (proj2 (proj2 (proj2 (classifier_decision_order "a.m"
              {| strict := false; fixpoint := false |}
              {| d_line := 3; d_column := 1; d_code := "W_SOMETHING_NEW";
                 d_message := "m" |})))) _ _ _).
    + apply has_false. vm_compute. reflexivity.
    + apply has_false. vm_compute. reflexivity.
    + vm_compute. reflexivity.
Defined.

(** C10. For a code outside the strict-only set the classification does
    not depend on strict mode: under any two option records the
    diagnostic yields the same visible comment, whose severity is
    computed from the code alone. *)
Theorem classification_independent_of_strict_mode
    (filePath : string) (d : Diagnostic) (options options' : Options) :
  d_code d ∉ STRICT_ONLY_CODES →
  commentOf filePath options d = commentOf filePath options' d
  ∧ ∃ c, commentOf filePath options d = Some c
       ∧ severity c = classifySeverity (d_code d).
Proof.
  intros Hs%has_false. unfold commentOf. rewrite Hs, !andb_false_r.
  split; [done|]. by eexists.
Qed.

Lemma classification_independent_of_strict_mode_witness :
  commentOf "a.m" {| strict := true; fixpoint := false |}
    {| d_line := 7; d_column := 2; d_code := "W_INDEX_OUT_OF_BOUNDS";
       d_message := "m" |}
  = commentOf "a.m" {| strict := false; fixpoint := false |}
    {| d_line := 7; d_column := 2; d_code := "W_INDEX_OUT_OF_BOUNDS";
       d_message := "m" |}.
Proof.
  refine (proj1 (classification_independent_of_strict_mode "a.m"
            {| d_line := 7; d_column := 2; d_code := "W_INDEX_OUT_OF_BOUNDS";
               d_message := "m" |}
            {| strict := true; fixpoint := false |}
            {| strict := false; fixpoint := false |} _)).
  apply has_false. vm_compute. reflexivity.
Defined.

Section Engine.

Variable analyzeSource :
  string → bool → bool → list (string * string) → Outcome AnalysisResult.

(** When the engine returns without a parse error, [analyzeFile] returns
    the comments of the diagnostics that are not skipped. *)
Lemma analyzeFile_diagnostics filePath content siblings options result :
  analyzeSource content (fixpoint options) (strict options) siblings
  = Returned result →
  truthy (parseError result) = false →
  analyzeFile analyzeSource filePath content siblings options
  = Returned (omap (commentOf filePath options) (diagnostics result)).
Proof.
  intros Hcall Hparse. unfold analyzeFile.
  by rewrite Hcall, Hparse, foldl_pushComment.
Qed.

(** C5. When the engine call throws, [analyzeFile] returns exactly one
    synthetic comment, at line 1 with severity warning; when the engine
    reports a parse error ([result.parseError] is truthy), it returns
    exactly one synthetic comment, at line 1 with severity error. In
    both cases [analyzeFile] returns: nothing is thrown to its caller. *)
Theorem engine_failure_yields_one_synthetic_comment
    (filePath content : string) (siblings : list (string * string))
    (options : Options) :
  (analyzeSource content (fixpoint options) (strict options) siblings
   = Threw →
   ∃ c, analyzeFile analyzeSource filePath content siblings options
        = Returned [c]
      ∧ path c = filePath ∧ line c = 1 ∧ severity c = warning)
  ∧ (∀ result,
       analyzeSource content (fixpoint options) (strict options) siblings
       = Returned result →
       truthy (parseError result) = true →
       ∃ c, analyzeFile analyzeSource filePath content siblings options
            = Returned [c]
          ∧ path c = filePath ∧ line c = 1 ∧ severity c = error)
  ∧ analyzeFile analyzeSource filePath content siblings options ≠ Threw.
Proof.
  unfold analyzeFile. split; [|split].
  - intros ->. by eexists.
  - intros result -> ->. by eexists.
  - destruct (analyzeSource _ _ _ _) as [result|]; [|done].
    by destruct (truthy (parseError result)).
Qed.

End Engine.

Lemma engine_failure_yields_one_synthetic_comment_witness :
  (∃ c, analyzeFile failingEngine "a.m" "" []
          {| strict := false; fixpoint := false |} = Returned [c]
      ∧ path c = "a.m" ∧ line c = 1 ∧ severity c = warning)
  ∧ (∃ c, analyzeFile failingEngine "a.m" "x = [1 2" []
            {| strict := false; fixpoint := false |} = Returned [c]
        ∧ path c = "a.m" ∧ line c = 1 ∧ severity c = error).
Proof.
  split.
  - exact (proj1 (engine_failure_yields_one_synthetic_comment failingEngine
             "a.m" "" [] {| strict := false; fixpoint := false |}) eq_refl).
  - exact (proj1 (proj2 (engine_failure_yields_one_synthetic_comment
             failingEngine "a.m" "x = [1 2" []
             {| strict := false; fixpoint := false |})) _ eq_refl eq_refl).
Defined.

End AnalyzerFacts.

(** ** Review batcher *)

Module ReviewFacts.
Import Js Analyzer Review.

(** The partition loop computes the two filters of the comment list. *)
Lemma foldl_splitStep changedLines comments acc :
  foldl (splitStep changedLines) acc comments
  = ((acc.1 ++ eligible changedLines comments)%list,
     (acc.2 ++ offDiff changedLines comments)%list).
Proof.
  unfold eligible, offDiff. revert acc.
  induction comments as [|c comments IH]; intros [inl out]; cbn [foldl].
  { by rewrite !filter_nil, !app_nil_r. }
  rewrite IH. unfold splitStep. cbn [fst snd].
  destruct (onDiff changedLines c) eqn:Hc.
  - rewrite filter_cons_True, filter_cons_False by (rewrite Hc; auto).
    cbn [fst snd]. by rewrite <- app_assoc.
  - rewrite filter_cons_False, filter_cons_True by (rewrite Hc; auto).
    cbn [fst snd]. by rewrite <- app_assoc.
Qed.

Lemma splitComments_filters changedLines comments :
  splitComments changedLines comments
  = (eligible changedLines comments, offDiff changedLines comments).
Proof. unfold splitComments. by rewrite foldl_splitStep. Qed.

(** Re-filtering the out-of-diff comments by diff membership leaves none. *)
Lemma offDiff_refiltered changedLines comments :
  filter (λ c, onDiff changedLines c = true) (offDiff changedLines comments)
  = [].
Proof.
  unfold offDiff. induction comments as [|c comments IH]; [done|].
  destruct (onDiff changedLines c) eqn:Hc.
  - by rewrite filter_cons_False by (rewrite Hc; auto).
  - rewrite filter_cons_True by (rewrite Hc; auto).
    by rewrite filter_cons_False by (rewrite Hc; auto).
Qed.

Lemma postedInline_capped changedLines comments filterToDiff :
  postedInline changedLines comments filterToDiff
  = take 50 (eligible changedLines comments).
Proof.
  unfold postedInline, allInline, inlineToPost.
  rewrite splitComments_filters. cbn [fst snd].
  destruct filterToDiff; [done|].
  by rewrite offDiff_refiltered, app_nil_r, take_take.
Qed.

Lemma len_nil_iff {A} (l : list A) : (len l =? 0) = true ↔ l = [].
Proof.
  unfold len. rewrite Z.eqb_eq. destruct l; simpl; [done|].
  split; [lia|done].
Qed.

Lemma postReview_None owner repo pullNumber commitSha comments changedLines
    filterToDiff :
  postReview owner repo pullNumber commitSha comments changedLines filterToDiff
  = None
  ↔ postedInline changedLines comments filterToDiff = []
    ∧ composedParts changedLines comments filterToDiff = [].
Proof.
  unfold postReview. rewrite <- !len_nil_iff.
  destruct (len (postedInline _ _ _) =? 0), (len (composedParts _ _ _) =? 0);
    simpl; split; try done; intros [? ?]; done.
Qed.

Lemma postReview_Some owner repo pullNumber commitSha comments changedLines
    filterToDiff sub :
  postReview owner repo pullNumber commitSha comments changedLines filterToDiff
  = Some sub →
  rs_comments sub
  = map toInline (postedInline changedLines comments filterToDiff)
  ∧ rs_body sub
    = bodyText (composedParts changedLines comments filterToDiff).
Proof.
  unfold postReview.
  destruct (_ && _); [done|]. intros [= <-]. done.
Qed.

(** C2. In both policy modes the inline list of [postReview] is the capped
    inline-eligible list, the first 50 comments at most whose path and
    line are in the index: it never has more than 50 entries, it is the
    same for [filterToDiff = true] and [filterToDiff = false], and the
    inline comments of an emitted submission are its rendering. *)
Theorem inline_list_is_capped_eligible_list
    (owner repo : string) (pullNumber : Z) (commitSha : string)
    (comments : list ReviewComment) (changedLines : gmap string (gset Z))
    (filterToDiff : bool) :
  postedInline changedLines comments filterToDiff
  = take 50 (filter (λ c, onDiff changedLines c = true) comments)
  ∧ (length (postedInline changedLines comments filterToDiff) ≤ 50)%nat
  ∧ postedInline changedLines comments true
    = postedInline changedLines comments false
  ∧ (∀ sub,
       postReview owner repo pullNumber commitSha comments changedLines
         filterToDiff = Some sub →
       rs_comments sub
       = map toInline
           (take 50 (filter (λ c, onDiff changedLines c = true) comments))
       ∧ (length (rs_comments sub) ≤ 50)%nat).
Proof.
  rewrite !postedInline_capped. fold (eligible changedLines comments).
  split; [done|]. split; [rewrite length_take; lia|]. split; [done|].
  intros sub [-> _]%postReview_Some. rewrite postedInline_capped.
  split; [done|]. rewrite length_map, length_take. lia.
Qed.

Lemma composedParts_filters changedLines comments filterToDiff :
  composedParts changedLines comments filterToDiff
  = bodyParts (eligible changedLines comments) (offDiff changedLines comments)
      filterToDiff.
Proof. unfold composedParts. by rewrite splitComments_filters. Qed.

Lemma join_empty_head sep p rest : join sep (p :: rest) = "" → p = "".
Proof. destruct rest, p; simpl; done. Qed.

Lemma overflowLine_nonempty overflow : overflowLine overflow ≠ "".
Proof. unfold overflowLine. cbn [String.append]. done. Qed.

Lemma outOfDiffSummary_nonempty shown : outOfDiffSummary shown ≠ "".
Proof. unfold outOfDiffSummary. cbn [String.append]. done. Qed.

Lemma bodyText_cons p rest :
  p ≠ "" → bodyText (p :: rest) = Some (join (nl ++ nl) (p :: rest)).
Proof.
  intros Hp. unfold bodyText.
  destruct (String.eqb_spec (join (nl ++ nl) (p :: rest)) "") as [He|]; [|done].
  by apply join_empty_head in He.
Qed.

(** Every part that [postReview] composes is a non-empty string, so the
    joined body of a non-empty list of parts is not empty. *)
Lemma bodyText_bodyParts_None inline outOfDiff filterToDiff :
  bodyText (bodyParts inline outOfDiff filterToDiff) = None
  ↔ bodyParts inline outOfDiff filterToDiff = [].
Proof.
  unfold bodyParts.
  destruct (0 <? overflowOf inline); cbn [app].
  - rewrite bodyText_cons by apply overflowLine_nonempty. done.
  - destruct (0 <? len (outOfDiffToShow filterToDiff outOfDiff)); [|done].
    rewrite bodyText_cons by apply outOfDiffSummary_nonempty. done.
Qed.

Lemma inline_list_is_capped_eligible_list_witness :
  ∃ sub,
    postReview "o" "r" 1 "c0ffee" sixtyComments {[ "a.m" := {[ 2 ]} ]} false
    = Some sub
    ∧ rs_comments sub = map toInline (take 50 sixtyComments)
    ∧ (length (rs_comments sub) ≤ 50)%nat.
Proof.
  destruct (postReview "o" "r" 1 "c0ffee" sixtyComments
              {[ "a.m" := {[ 2 ]} ]} false) as [sub|] eqn:Hsub.
  - exists sub. split; [reflexivity|].
    destruct (proj2 (proj2 (proj2 (inline_list_is_capped_eligible_list
                "o" "r" 1 "c0ffee" sixtyComments {[ "a.m" := {[ 2 ]} ]}
                false))) sub Hsub) as [Hposted Hlen].
    split; [|exact Hlen]. rewrite Hposted. vm_compute. reflexivity.
  - vm_compute in Hsub. discriminate Hsub.
Defined.

(** C4. [postReview] makes no create-review call exactly when the final
    inline list is empty and no body text was composed; for an empty
    comment list it makes none. *)
Theorem no_submission_iff_nothing_to_report
    (owner repo : string) (pullNumber : Z) (commitSha : string)
    (comments : list ReviewComment) (changedLines : gmap string (gset Z))
    (filterToDiff : bool) :
  (postReview owner repo pullNumber commitSha comments changedLines
     filterToDiff = None
   ↔ postedInline changedLines comments filterToDiff = []
     ∧ bodyText (composedParts changedLines comments filterToDiff) = None)
  ∧ (bodyText (composedParts changedLines comments filterToDiff) = None
     ↔ composedParts changedLines comments filterToDiff = [])
  ∧ postReview owner repo pullNumber commitSha [] changedLines filterToDiff
    = None.
Proof.
  assert (bodyText (composedParts changedLines comments filterToDiff) = None
          ↔ composedParts changedLines comments filterToDiff = []) as Hbody.
  { rewrite composedParts_filters. apply bodyText_bodyParts_None. }
  split; [|split; [exact Hbody|]].
  - rewrite Hbody. apply postReview_None.
  - apply postReview_None. by destruct filterToDiff.
Qed.

Lemma no_submission_iff_nothing_to_report_witness :
  postReview "o" "r" 1 "c0ffee"
    [ {| path := "a.m"; line := 9; code := "W_RESHAPE_MISMATCH";
         body := "reshape"; severity := error |} ]
    {[ "a.m" := {[ 2 ]} ]} false
  = None.
Proof.
  apply (proj1 (no_submission_iff_nothing_to_report "o" "r" 1 "c0ffee"
           [ {| path := "a.m"; line := 9; code := "W_RESHAPE_MISMATCH";
                body := "reshape"; severity := error |} ]
           {[ "a.m" := {[ 2 ]} ]} false)).
  split; vm_compute; reflexivity.
Defined.

Lemma eligible_length_take changedLines comments :
  length (eligible changedLines comments) = 60%nat →
  overflowOf (eligible changedLines comments) = 10.
Proof.
  intros H. unfold overflowOf, inlineToPost, len.
  rewrite length_take, H. reflexivity.
Qed.

(** C6. When 60 of the comments are inline-eligible and [filterToDiff] is
    true, the submission carries exactly 50 inline comments and its body
    starts with the part reporting the 10 additional warnings not shown
    inline, followed by the out-of-diff summary if there is one; when all
    the comments are inline-eligible the body is that line alone. *)
Theorem sixty_eligible_comments_post_fifty_and_report_ten
    (owner repo : string) (pullNumber : Z) (commitSha : string)
    (comments : list ReviewComment) (changedLines : gmap string (gset Z)) :
  length (eligible changedLines comments) = 60%nat →
  ∃ sub,
    postReview owner repo pullNumber commitSha comments changedLines true
    = Some sub
    ∧ length (rs_comments sub) = 50%nat
    ∧ rs_body sub
      = Some (join (nl ++ nl)
                ("... and 10 more warnings not shown inline."
                 :: (if 0 <? len (offDiff changedLines comments)
                     then [outOfDiffSummary (offDiff changedLines comments)]
                     else [])))
    ∧ (offDiff changedLines comments = [] →
       rs_body sub = Some "... and 10 more warnings not shown inline.").
Proof.
  intros H60.
  assert (composedParts changedLines comments true
          = "... and 10 more warnings not shown inline."
            :: (if 0 <? len (offDiff changedLines comments)
                then [outOfDiffSummary (offDiff changedLines comments)]
                else [])) as Hparts.
  { rewrite composedParts_filters. unfold bodyParts, outOfDiffToShow.
    by rewrite eligible_length_take. }
  assert (length (postedInline changedLines comments true) = 50%nat) as Hlen.
  { rewrite postedInline_capped, length_take, H60. reflexivity. }
  destruct (postReview owner repo pullNumber commitSha comments changedLines
              true) as [sub|] eqn:Hpost.
  - exists sub. apply postReview_Some in Hpost as [Hc Hb].
    split; [done|]. split; [by rewrite Hc, length_map|].
    assert (rs_body sub
            = Some (join (nl ++ nl)
                      ("... and 10 more warnings not shown inline."
                       :: (if 0 <? len (offDiff changedLines comments)
                           then [outOfDiffSummary (offDiff changedLines comments)]
                           else [])))) as Hbody.
    { rewrite Hb, Hparts. by apply bodyText_cons. }
    split; [exact Hbody|]. intros Hoff. by rewrite Hbody, Hoff.
  - apply postReview_None in Hpost as [Hnil _]. by rewrite Hnil in Hlen.
Qed.

Lemma sixty_eligible_comments_post_fifty_and_report_ten_witness :
  ∃ sub,
    postReview "o" "r" 1 "c0ffee" sixtyComments {[ "a.m" := {[ 2 ]} ]} true
    = Some sub
    ∧ length (rs_comments sub) = 50%nat
    ∧ rs_body sub = Some "... and 10 more warnings not shown inline.".
Proof.
  destruct (sixty_eligible_comments_post_fifty_and_report_ten
              "o" "r" 1 "c0ffee" sixtyComments {[ "a.m" := {[ 2 ]} ]})
    as (sub & Hpost & Hlen & _ & Hbody).
  { vm_compute. reflexivity. }
  exists sub. split; [exact Hpost|]. split; [exact Hlen|].
  apply Hbody. vm_compute. reflexivity.
Defined.

Lemma eligible_idemp changedLines comments :
  eligible changedLines (eligible changedLines comments)
  = eligible changedLines comments.
Proof.
  unfold eligible. induction comments as [|c comments IH]; [done|].
  destruct (onDiff changedLines c) eqn:Hc.
  - rewrite !filter_cons_True by done. by rewrite IH.
  - by rewrite filter_cons_False by congruence.
Qed.

Lemma eligible_onDiff changedLines comments c :
  c ∈ eligible changedLines comments → onDiff changedLines c = true.
Proof. unfold eligible. by intros [? _]%list_elem_of_filter. Qed.

(** C8. With [filterToDiff = false] the body carries no out-of-diff
    summary, only the overflow line if there is one, and a comment whose
    path and line are not in the index is dropped: it is not posted
    inline, and the run is the one of the inline-eligible comments alone. *)
Theorem out_of_diff_comments_dropped_when_not_filtering
    (owner repo : string) (pullNumber : Z) (commitSha : string)
    (comments : list ReviewComment) (changedLines : gmap string (gset Z)) :
  composedParts changedLines comments false
  = (if 0 <? overflowOf (eligible changedLines comments)
     then [overflowLine (overflowOf (eligible changedLines comments))]
     else [])
  ∧ (∀ c, onDiff changedLines c = false →
          c ∉ postedInline changedLines comments false)
  ∧ postReview owner repo pullNumber commitSha comments changedLines false
    = postReview owner repo pullNumber commitSha
        (eligible changedLines comments) changedLines false.
Proof.
  assert (∀ cs, composedParts changedLines cs false
                = (if 0 <? overflowOf (eligible changedLines cs)
                   then [overflowLine (overflowOf (eligible changedLines cs))]
                   else [])) as Hparts.
  { intros cs. rewrite composedParts_filters.
    unfold bodyParts, outOfDiffToShow. cbn [len length Z.of_nat Z.ltb Z.compare].
    by rewrite app_nil_r. }
  split; [apply Hparts|]. split.
  - intros c Hoff Hin. rewrite postedInline_capped in Hin.
    apply subseteq_take, eligible_onDiff in Hin. congruence.
  - unfold postReview.
    by rewrite !Hparts, !postedInline_capped, eligible_idemp.
Qed.

Lemma out_of_diff_comments_dropped_when_not_filtering_witness :
  {| path := "a.m"; line := 9; code := "W_RESHAPE_MISMATCH";
     body := "reshape"; severity := error |}
  ∉ postedInline {[ "a.m" := {[ 2 ]} ]}
      [ {| path := "a.m"; line := 2; code := "W_DIVISION_BY_ZERO";
           body := "zero"; severity := error |};
        {| path := "a.m"; line := 9; code := "W_RESHAPE_MISMATCH";
           body := "reshape"; severity := error |} ]
      false.
Proof.
  apply (proj1 (proj2 (out_of_diff_comments_dropped_when_not_filtering
           "o" "r" 1 "c0ffee"
           [ {| path := "a.m"; line := 2; code := "W_DIVISION_BY_ZERO";
                body := "zero"; severity := error |};
             {| path := "a.m"; line := 9; code := "W_RESHAPE_MISMATCH";
                body := "reshape"; severity := error |} ]
           {[ "a.m" := {[ 2 ]} ]}))).
  vm_compute. reflexivity.
Defined.

End ReviewFacts.

(** * Further properties *)

(** ** Diff line index: hunk headers, hunks and the file map *)

Module DiffMore.
Import Js Diff Shapes DiffFacts.

Lemma append_cons c (p s : string) : String c p ++ s = String c (p ++ s).
Proof. reflexivity. Qed.

Lemma append_nil (s : string) : "" ++ s = s.
Proof. reflexivity. Qed.

Lemma strip_prefix_app p s : strip_prefix p (p ++ s) = Some s.
Proof.
  induction p as [|a p IH]; [done|].
  rewrite append_cons. cbn [strip_prefix]. by rewrite Ascii.eqb_refl.
Qed.

Lemma strip_prefix_Some p s r : strip_prefix p s = Some r → s = p ++ r.
Proof.
  revert s. induction p as [|a p IH]; intros s; cbn [strip_prefix].
  { by intros [= ->]. }
  destruct s as [|b s]; [done|].
  destruct (Ascii.eqb_spec a b) as [<-|]; [|done].
  intros ->%IH. done.
Qed.

Lemma span_digits_spec s :
  s = (span_digits s).1 ++ (span_digits s).2
  ∧ digit_free_head (span_digits s).2.
Proof.
  induction s as [|c r [IH1 IH2]]; cbn [span_digits]; [done|].
  destruct (is_digit c) eqn:Hc; [|done].
  destruct (span_digits r) as [ds rest]; cbn [fst snd] in *.
  split; [by rewrite append_cons, <- IH1|done].
Qed.

Lemma span_digits_app ds rest :
  all_digits ds = true → digit_free_head rest →
  span_digits (ds ++ rest) = (ds, rest).
Proof.
  intros Hds Hrest. induction ds as [|c ds IH].
  - rewrite append_nil. destruct rest as [|c r]; [done|]. cbn [span_digits].
    cbn [digit_free_head] in Hrest. by rewrite Hrest.
  - cbn [all_digits] in Hds. apply andb_prop in Hds as [Hc Hds].
    rewrite append_cons. cbn [span_digits]. by rewrite Hc, IH.
Qed.

Lemma is_number_inv s :
  is_number s = true → all_digits s = true ∧ ∃ c r, s = String c r ∧ is_digit c = true.
Proof.
  unfold is_number. intros [Hd Hne]%andb_prop. split; [done|].
  destruct s as [|c r]; [done|]. cbn [all_digits] in Hd.
  apply andb_prop in Hd as [Hc _]. eauto.
Qed.

Lemma span_digits_number_space ds rest :
  is_number ds = true → span_digits (ds ++ " " ++ rest) = (ds, " " ++ rest).
Proof. intros [Hd _]%is_number_inv. by apply span_digits_app. Qed.

(** An optional count followed by a space is consumed whole. *)
Lemma skip_count_countText count rest :
  is_count count = true →
  skip_count (countText count ++ " " ++ rest) = " " ++ rest.
Proof.
  destruct count as [ds|]; cbn [is_count countText]; [|done].
  intros Hds. change ("," ++ ds) with (String "," ds).
  rewrite append_cons. cbn [skip_count].
  change (Ascii.eqb "," ",") with true. cbn match.
  rewrite span_digits_number_space by done.
  apply is_number_inv in Hds as [_ (c & r & -> & _)]. done.
Qed.

(** What [skip_count] removes is an optional count. *)
Lemma skip_count_inv s :
  ∃ count, is_count count = true ∧ s = countText count ++ skip_count s.
Proof.
  destruct s as [|c r]; [by exists None|]. cbn [skip_count].
  destruct (Ascii.eqb_spec c ",") as [->|]; [|by exists None].
  pose proof (span_digits_spec r) as [Hr _].
  pose proof (span_digits_all_digits r) as Hd.
  destruct (span_digits r) as [ds rest]; cbn [fst snd] in *.
  destruct ds as [|d ds]; [by exists None|].
  exists (Some (String d ds)). split; [|by rewrite Hr].
  unfold is_count, is_number. by rewrite Hd.
Qed.


Lemma hunkMatch_inv (raw newStart : string) :
  hunkMatch raw = Some newStart →
  ∃ oldStart oldCount newCount tail,
    is_number oldStart = true ∧ is_count oldCount = true
    ∧ is_number newStart = true ∧ is_count newCount = true
    ∧ raw = headerText oldStart oldCount newStart newCount tail.
Proof.
  unfold hunkMatch. intros H.
destruct (strip_prefix "@@ -" raw) as [r1|] eqn:H1;
  cbn [mbind option_bind] in H; [|done].
apply strip_prefix_Some in H1.
pose proof (span_digits_spec r1) as [Hr1 _].
pose proof (span_digits_all_digits r1) as Ha.
destruct (span_digits r1) as [a r2]; cbn [fst snd] in *.
destruct (String.eqb_spec a "") as [|Hane]; [done|].
destruct (skip_count_inv r2) as (b & Hb & Hr2).
destruct (strip_prefix " +" (skip_count r2)) as [r3|] eqn:H3;
  cbn [mbind option_bind] in H; [|done].
apply strip_prefix_Some in H3.
pose proof (span_digits_spec r3) as [Hr3 _].
pose proof (span_digits_all_digits r3) as Hc.
destruct (span_digits r3) as [c r4]; cbn [fst snd] in *.
destruct (String.eqb_spec c "") as [|Hcne]; [done|].
destruct (skip_count_inv r4) as (d & Hd & Hr4).
destruct (strip_prefix " @@" (skip_count r4)) as [tail|] eqn:H5;
  cbn [mbind option_bind] in H; [|done].
apply strip_prefix_Some in H5. injection H as <-.
exists a, b, d, tail. unfold is_number. rewrite Ha, Hc.
repeat split; try done.
+ by apply negb_true_iff, String.eqb_neq.
+ by apply negb_true_iff, String.eqb_neq.
+ unfold headerText. by rewrite H1, Hr1, Hr2, H3, Hr3, Hr4, H5.
Qed.

Lemma hunkMatch_headerText a b c d tail :
  is_number a = true → is_count b = true →
  is_number c = true → is_count d = true →
  hunkMatch (headerText a b c d tail) = Some c.
Proof.
  intros Ha Hb Hc Hd.
  unfold hunkMatch, headerText. rewrite strip_prefix_app.
  cbn [mbind option_bind].
  assert (∀ n k rest, is_number n = true → is_count k = true →
            span_digits (n ++ countText k ++ " " ++ rest)
            = (n, countText k ++ " " ++ rest)) as Hspan.
  { intros n k rest [Hn _]%is_number_inv Hk. apply span_digits_app; [done|].
    by destruct k. }
  change (" +" ++ c ++ countText d ++ " @@" ++ tail)
    with (" " ++ ("+" ++ c ++ countText d ++ " @@" ++ tail)).
  rewrite Hspan by done.
  destruct (is_number_inv a Ha) as [_ (? & ? & -> & _)].
  cbn [String.eqb]. rewrite skip_count_countText by done.
  change (" " ++ "+" ++ c ++ countText d ++ " @@" ++ tail)
    with (" +" ++ (c ++ countText d ++ " @@" ++ tail)).
  rewrite strip_prefix_app. cbn [mbind option_bind].
  change (" @@" ++ tail) with (" " ++ ("@@" ++ tail)).
  rewrite Hspan by done.
  destruct (is_number_inv c Hc) as [_ (? & ? & Hceq & _)].
  rewrite Hceq at 1. cbn [String.eqb]. rewrite skip_count_countText by done.
  change (" " ++ "@@" ++ tail) with (" @@" ++ tail).
  by rewrite strip_prefix_app.
Qed.

(** X1. The matcher of hunk headers accepts exactly the lines of the form
    [@@ -a[,b] +c[,d] @@...] with [a], [b], [c], [d] non-empty digit
    strings, and returns [c]. *)
Theorem hunkMatch_iff_header_shape (raw newStart : string) :
  hunkMatch raw = Some newStart
  ↔ ∃ oldStart oldCount newCount tail,
      is_number oldStart = true ∧ is_count oldCount = true
      ∧ is_number newStart = true ∧ is_count newCount = true
      ∧ raw = headerText oldStart oldCount newStart newCount tail.
Proof.
  split; [apply hunkMatch_inv|].
  intros (a & b & d & tail & Ha & Hb & Hc & Hd & ->).
  by apply hunkMatch_headerText.
Qed.

Lemma hunkMatch_iff_header_shape_witness :
  hunkMatch "@@ -12,7 +15 @@ end" = Some "15".
Proof.
  apply (proj2 (hunkMatch_iff_header_shape "@@ -12,7 +15 @@ end" "15")).
  exists "12", (Some "7"), None, " end". by vm_compute.
Defined.









Lemma startsWith_cons raw p :
  startsWith raw (String p "") = true ↔ ∃ r, raw = String p r.
Proof.
  unfold startsWith. destruct raw as [|c r]; cbn [strip_prefix].
  { split; [done|]. by intros [? ?]. }
  destruct (Ascii.eqb_spec p c) as [->|Hne].
  - split; [eauto|done].
  - split; [done|]. intros [? [= -> _]]. done.
Qed.

Lemma startsWith_minus_no_header raw :
  startsWith raw "-" = true → hunkMatch raw = None.
Proof. intros [r ->]%startsWith_cons. done. Qed.

Lemma startsWith_plus_no_header raw :
  startsWith raw "+" = true → hunkMatch raw = None.
Proof. intros [r ->]%startsWith_cons. done. Qed.

Lemma patchStep_minus st raw :
  startsWith raw "-" = true → patchStep st raw = st.
Proof.
  intros Hm. unfold patchStep. rewrite startsWith_minus_no_header by done.
  destruct (startsWith raw "+") eqn:Hp; [|by rewrite Hm].
  apply startsWith_plus_minus in Hp. congruence.
Qed.

Lemma patchStep_plus st raw :
  startsWith raw "+" = true →
  patchStep st raw = {| lines := {[ currentLine st ]} ∪ lines st;
                        currentLine := currentLine st + 1 |}.
Proof.
  intros Hp. unfold patchStep.
  by rewrite startsWith_plus_no_header, Hp by done.
Qed.

Lemma patchStep_header st raw newStart :
  hunkMatch raw = Some newStart →
  patchStep st raw = {| lines := lines st; currentLine := parseInt newStart |}.
Proof. intros Hh. unfold patchStep. by rewrite Hh. Qed.

Lemma patchStep_context st raw :
  hunkMatch raw = None → startsWith raw "+" = false →
  startsWith raw "-" = false →
  patchStep st raw = {| lines := lines st; currentLine := currentLine st + 1 |}.
Proof. intros Hh Hp Hm. unfold patchStep. by rewrite Hh, Hp, Hm. Qed.

(** X3. Removed lines have no effect on the index: a patch and the same
    patch without its lines that begin with ['-'] leave [parsePatchLines]'
    loop in the same state. *)
Theorem removed_lines_do_not_matter (st : PatchState) (raws : list string) :
  runPatch st raws = runPatch st (advancing raws).
Proof.
  unfold runPatch, advancing. revert st.
  induction raws as [|raw raws IH]; intros st; [done|].
  cbn [foldl]. destruct (startsWith raw "-") eqn:Hm.
  - rewrite filter_cons_False by congruence.
    by rewrite patchStep_minus.
  - rewrite filter_cons_True by done. cbn [foldl]. apply IH.
Qed.

Lemma runPatch_lines_mono st raws :
  lines st ⊆ lines (runPatch st raws).
Proof.
  unfold runPatch. revert st.
  induction raws as [|raw raws IH]; intros st; [done|]. cbn [foldl].
  etrans; [|apply IH].
  destruct (patchStep_cases st raw) as [(d & _ & ->)|[_ [->|[->| ->]]]];
    cbn [lines]; set_solver.
Qed.

(** X4. The line set of a patch is empty exactly when no line of the
    patch begins with ['+']; in particular the empty patch text and a
    patch of context and removed lines only record nothing. *)
Theorem no_lines_recorded_iff_no_added_line (patch : string) :
  parsePatchLines patch = ∅
  ↔ Forall (λ raw, startsWith raw "+" = false) (split_nl patch).
Proof.
  unfold parsePatchLines, parsePatchState.
  generalize (split_nl patch) as raws. intros raws.
  assert (∀ st, Forall (λ raw, startsWith raw "+" = false) raws →
                lines (runPatch st raws) = lines st) as Hnone.
  { unfold runPatch. induction raws as [|raw raws IH]; intros st Hall; [done|].
    apply Forall_cons in Hall as [Hraw Hall]. cbn [foldl].
    rewrite IH by done. unfold patchStep.
    destruct (hunkMatch raw); [done|]. rewrite Hraw.
    by destruct (startsWith raw "-"). }
  split; [|by intros ?%(Hnone initPatchState)].
  intros Hempty. apply Forall_forall. intros raw Hin.
  destruct (startsWith raw "+") eqn:Hp; [exfalso|done].
  apply list_elem_of_split in Hin as (pre & post & ->).
  unfold runPatch in Hempty. rewrite foldl_app in Hempty. cbn [foldl] in Hempty.
  rewrite patchStep_plus in Hempty by done.
  pose proof (runPatch_lines_mono
                {| lines := {[currentLine (foldl patchStep initPatchState pre)]}
                            ∪ lines (foldl patchStep initPatchState pre);
                   currentLine := currentLine (foldl patchStep initPatchState pre) + 1 |}
                post) as Hmono.
  unfold runPatch in Hmono. rewrite Hempty in Hmono. cbn [lines] in Hmono.
  apply (not_elem_of_empty (C:=gset Z)
           (currentLine (foldl patchStep initPatchState pre))).
  apply Hmono, elem_of_union_l. by apply elem_of_singleton.
Qed.

Lemma no_lines_recorded_iff_no_added_line_witness :
  parsePatchLines (join nl ["@@ -3,2 +3 @@"; " kept"; "-dropped"]) = ∅.
Proof.
  apply (proj2 (no_lines_recorded_iff_no_added_line
                  (join nl ["@@ -3,2 +3 @@"; " kept"; "-dropped"]))).
  vm_compute. repeat constructor.
Defined.






Lemma split_nl_nonempty s : split_nl s ≠ [].
Proof.
  destruct s as [|c r]; cbn [split_nl]; [done|].
  destruct (Ascii.eqb c LF); [done|]. by destruct (split_nl r).
Qed.

(** Splitting a text that was glued with a line feed. *)
Lemma split_nl_app s1 s2 :
  split_nl (s1 ++ nl ++ s2) = (split_nl s1 ++ split_nl s2)%list.
Proof.
  induction s1 as [|c r IH]; [done|].
  rewrite append_cons. cbn [split_nl]. rewrite IH.
  destruct (Ascii.eqb c LF); [done|].
  pose proof (split_nl_nonempty r).
  by destruct (split_nl r).
Qed.

(** The lines already recorded are carried along unchanged by the loop. *)
Lemma runPatch_frame recorded cursor raws :
  lines (runPatch {| lines := recorded; currentLine := cursor |} raws)
  = recorded ∪ lines (runPatch {| lines := ∅; currentLine := cursor |} raws)
  ∧ currentLine (runPatch {| lines := recorded; currentLine := cursor |} raws)
    = currentLine (runPatch {| lines := ∅; currentLine := cursor |} raws).
Proof.
  unfold runPatch. revert recorded cursor.
  induction raws as [|raw raws IH]; intros recorded cursor; cbn [foldl].
  { cbn [lines currentLine]. split; [|done]. by rewrite union_empty_r_L. }
  destruct (hunkMatch raw) as [d|] eqn:Hh.
  { rewrite !(patchStep_header _ _ _ Hh). apply IH. }
  destruct (startsWith raw "+") eqn:Hp.
  - rewrite !patchStep_plus by done. cbn [lines currentLine].
    destruct (IH ({[cursor]} ∪ recorded) (cursor + 1)) as [-> ->].
    destruct (IH ({[cursor]} ∪ ∅) (cursor + 1)) as [-> ->].
    split; [|done]. rewrite union_empty_r_L.
    by rewrite (union_comm_L {[cursor]} recorded), !union_assoc_L.
  - destruct (startsWith raw "-") eqn:Hm.
    + rewrite !patchStep_minus by done. apply IH.
    + rewrite !patchStep_context by done. apply IH.
Qed.

(** X6. Hunks accumulate: when the text after a line feed begins with a
    hunk header, the line set of the whole patch is the union of the line
    sets of the two parts. *)
Theorem hunks_accumulate (patch1 patch2 : string) :
  (∃ hdr rest, split_nl patch2 = hdr :: rest ∧ is_Some (hunkMatch hdr)) →
  parsePatchLines (patch1 ++ nl ++ patch2)
  = parsePatchLines patch1 ∪ parsePatchLines patch2.
Proof.
  intros (hdr & rest & Hsplit & [d Hd]).
  unfold parsePatchLines, parsePatchState.
  rewrite split_nl_app, Hsplit. unfold runPatch. rewrite foldl_app.
  cbn [foldl]. rewrite !(patchStep_header _ _ _ Hd).
  destruct (foldl patchStep initPatchState (split_nl patch1))
    as [recorded cursor].
  cbn [lines]. apply (runPatch_frame recorded (parseInt d) rest).
Qed.

Lemma hunks_accumulate_witness :
  parsePatchLines (examplePatch ++ nl ++ Samples.secondHunk)
  = parsePatchLines examplePatch ∪ parsePatchLines Samples.secondHunk.
Proof.
  apply (hunks_accumulate examplePatch Samples.secondHunk).
  exists "@@ -9,0 +10,3 @@ function y = f(x)", ["+a"; "+b"; "+c"].
  split; [by vm_compute|]. exists "10". by vm_compute.
Defined.


(** Files that are skipped, or that carry another name, leave the entry of
    a name as it was. *)
Lemma foldl_changedStep_lookup_other files result name :
  Forall (λ g, filename g = name → skipped g = true) files →
  foldl changedStep result files !! name = result !! name.
Proof.
  intros Hall. revert result.
  induction Hall as [|file files Hfile _ IH]; intros result; [done|].
  cbn [foldl]. rewrite IH. destruct (skipped file) eqn:Hs.
  - by rewrite changedStep_skipped.
  - destruct (changedStep_kept result file Hs) as [lns ->].
    apply lookup_insert_ne. intros Heq. specialize (Hfile Heq). congruence.
Qed.

Lemma changedStep_patch result file p :
  status file ≠ "removed" → patch file = Some p → p ≠ "" →
  changedStep result file = <[ filename file := parsePatchLines p ]> result.
Proof.
  intros Hst Hp Hne. unfold changedStep. rewrite Hp.
  destruct (String.eqb_spec (status file) "removed"); [done|].
  by destruct (String.eqb_spec p "").
Qed.

Lemma skipped_false_inv file :
  skipped file = false →
  status file ≠ "removed" ∧ ∃ p, patch file = Some p ∧ p ≠ "".
Proof.
  unfold skipped, truthy. intros [Hst Hp]%orb_false_elim.
  split; [by apply String.eqb_neq|].
  destruct (patch file) as [p|]; [|done]. exists p. split; [done|].
  apply negb_false_iff, negb_true_iff in Hp. by apply String.eqb_neq.
Qed.

(** X7. A file that is not removed and has a non-empty patch is mapped to
    the line set of its patch, unless a later file of the list with the
    same name, itself not skipped, overwrites the entry. *)
Theorem kept_file_maps_to_lines_of_its_patch
    (before after : list PullFile) (file : PullFile) (p : string) :
  status file ≠ "removed" → patch file = Some p → p ≠ "" →
  (∀ g, g ∈ after → filename g = filename file → skipped g = true) →
  parseChangedLines (before ++ file :: after)%list !! filename file
  = Some (parsePatchLines p).
Proof.
  intros Hst Hp Hne Hafter. unfold parseChangedLines.
  rewrite foldl_app. cbn [foldl].
  rewrite foldl_changedStep_lookup_other by by apply Forall_forall.
  rewrite (changedStep_patch _ file p) by done.
  apply lookup_insert_eq.
Qed.

Lemma kept_file_maps_to_lines_of_its_patch_witness :
  parseChangedLines [Samples.oldFile; Samples.solveFile; Samples.readmeFile]
    !! "src/solve.m"
  = Some (parsePatchLines examplePatch).
Proof.
  apply (kept_file_maps_to_lines_of_its_patch
           [Samples.oldFile] [Samples.readmeFile] Samples.solveFile
           examplePatch); [done|done|done|].
  intros g Hg Hname. apply list_elem_of_singleton in Hg. subst g.
  discriminate Hname.
Defined.


Lemma parseChangedLines_is_Some (files : list PullFile) (name : string) :
  is_Some (parseChangedLines files !! name)
  ↔ ∃ file p, file ∈ files ∧ filename file = name
              ∧ status file ≠ "removed" ∧ patch file = Some p ∧ p ≠ "".
Proof.
  unfold parseChangedLines. split.
  - intros Hsome.
    destruct (decide (Exists (λ g, filename g = name ∧ skipped g = false) files))
      as [Hex|Hnex].
    + apply Exists_exists in Hex as (file & Hin & Hname & Hs).
      apply skipped_false_inv in Hs as (Hst & p & Hp & Hne).
      by exists file, p.
    + apply not_Exists_Forall in Hnex; [|apply _].
      assert (foldl changedStep ∅ files !! name = None) as Hnone.
      { apply foldl_changedStep_lookup_None. split; [apply lookup_empty|].
        eapply Forall_impl; [exact Hnex|]. cbn. intros g Hg Hname.
        destruct (skipped g); [done|]. by destruct Hg. }
      rewrite Hnone in Hsome. by destruct Hsome.
  - intros (file & p & Hin & Hname & Hst & Hp & Hne).
    destruct (foldl changedStep ∅ files !! name) eqn:Hlook; [done|].
    apply foldl_changedStep_lookup_None in Hlook as [_ Hall].
    rewrite Forall_forall in Hall. specialize (Hall file Hin Hname).
    unfold skipped, truthy in Hall. rewrite Hp in Hall.
    apply String.eqb_neq in Hst, Hne. by rewrite Hst, Hne in Hall.
Qed.

(** X8. The keys of the map are exactly the names of the files that are
    not removed and have a non-empty patch: a file whose patch is the
    empty string is skipped like one without a patch. *)
Theorem changed_lines_keys (files : list PullFile) (name : string) :
  is_Some (parseChangedLines files !! name)
  ↔ ∃ file p, file ∈ files ∧ filename file = name
              ∧ status file ≠ "removed" ∧ patch file = Some p ∧ p ≠ "".
Proof. apply parseChangedLines_is_Some. Qed.

Lemma changed_lines_keys_witness :
  is_Some (parseChangedLines [Samples.oldFile; Samples.solveFile]
             !! "src/solve.m").
Proof.
  apply (proj2 (changed_lines_keys [Samples.oldFile; Samples.solveFile]
                  "src/solve.m")).
  exists Samples.solveFile, examplePatch.
  split; [by right; left|]. by vm_compute.
Defined.


End DiffMore.

(** ** Diagnostic classifier: the two tables and the two modes *)

Module AnalyzerMore.
Import Js Analyzer AnalyzerFacts.

(** X9. No strict-only code is an error: in strict mode a strict-only code
    is reported as a hint when it begins with [W_UNSUPPORTED_] and as a
    warning otherwise. *)
Theorem strict_only_codes_are_never_errors (code : string) :
  code ∈ STRICT_ONLY_CODES →
  classifySeverity code
  = (if startsWith code "W_UNSUPPORTED_" then hint else warning).
Proof.
  unfold STRICT_ONLY_CODES. rewrite elem_of_list_to_set.
  intros Hin.
  repeat (apply elem_of_cons in Hin as [->|Hin]; [by vm_compute|]).
  by apply elem_of_nil in Hin.
Qed.

Lemma strict_only_codes_are_never_errors_witness :
  classifySeverity "W_UNKNOWN_FUNCTION" = warning.
Proof.
  refine (strict_only_codes_are_never_errors "W_UNKNOWN_FUNCTION" _).
  apply has_true. vm_compute. reflexivity.
Defined.


Lemma commentOf_strict filePath options d :
  strict options = true →
  commentOf filePath options d
  = Some {| path := filePath; line := d_line d; code := d_code d;
            body := d_message d; severity := classifySeverity (d_code d) |}.
Proof. intros Hs. unfold commentOf. by rewrite Hs. Qed.

Lemma omap_commentOf_strict filePath options (ds : list Diagnostic) :
  strict options = true →
  omap (commentOf filePath options) ds
  = map (λ d, {| path := filePath; line := d_line d; code := d_code d;
                 body := d_message d;
                 severity := classifySeverity (d_code d) |}) ds.
Proof.
  intros Hs. induction ds as [|d ds IH]; [done|].
  change (omap (commentOf filePath options) (d :: ds))
    with (match commentOf filePath options d with
          | Some c => c :: omap (commentOf filePath options) ds
          | None => omap (commentOf filePath options) ds
          end).
  by rewrite commentOf_strict, IH.
Qed.

Lemma omap_commentOf_default filePath options options' (ds : list Diagnostic) :
  strict options = false → strict options' = true →
  omap (commentOf filePath options) ds
  = filter (λ c, code c ∉ STRICT_ONLY_CODES)
      (omap (commentOf filePath options') ds).
Proof.
  intros Hs Hs'. rewrite (omap_commentOf_strict _ options') by done.
  induction ds as [|d ds IH]; [done|].
  change (omap (commentOf filePath options) (d :: ds))
    with (match commentOf filePath options d with
          | Some c => c :: omap (commentOf filePath options) ds
          | None => omap (commentOf filePath options) ds
          end).
  rewrite IH. cbn [map]. unfold commentOf at 1. rewrite Hs. cbn [negb andb].
  destruct (has STRICT_ONLY_CODES (d_code d)) eqn:Hd.
  - apply has_true in Hd. by rewrite filter_cons_False by (cbn; auto).
  - apply has_false in Hd. by rewrite filter_cons_True by done.
Qed.

Section Engine.

Variable analyzeSource :
  string → bool → bool → list (string * string) → Outcome AnalysisResult.

(** X10. In strict mode nothing is filtered: when the engine returns
    without a parse error, [analyzeFile] returns one comment per
    diagnostic, in the engine's order, with the diagnostic's line, code
    and message and the severity of its code. *)
Theorem strict_mode_keeps_every_diagnostic
    (filePath content : string) (siblings : list (string * string))
    (options : Options) (result : AnalysisResult) :
  strict options = true →
  analyzeSource content (fixpoint options) (strict options) siblings
  = Returned result →
  truthy (parseError result) = false →
  analyzeFile analyzeSource filePath content siblings options
  = Returned
      (map (λ d, {| path := filePath; line := d_line d; code := d_code d;
                    body := d_message d;
                    severity := classifySeverity (d_code d) |})
         (diagnostics result)).
Proof.
  intros Hs Hcall Hparse.
  rewrite (analyzeFile_diagnostics _ _ _ _ _ _ Hcall Hparse).
  by rewrite omap_commentOf_strict.
Qed.



(** X11. The default mode reports what strict mode reports minus the
    strict-only codes: when the engine returns the same result, without a
    parse error, under both option records, the comments of the default
    mode are the comments of strict mode whose code is not strict-only,
    in the same order. *)
Theorem default_mode_is_strict_mode_filtered
    (filePath content : string) (siblings : list (string * string))
    (options options' : Options) (result : AnalysisResult) :
  strict options = false → strict options' = true →
  analyzeSource content (fixpoint options) (strict options) siblings
  = Returned result →
  analyzeSource content (fixpoint options') (strict options') siblings
  = Returned result →
  truthy (parseError result) = false →
  ∃ shown all,
    analyzeFile analyzeSource filePath content siblings options
    = Returned shown
    ∧ analyzeFile analyzeSource filePath content siblings options'
      = Returned all
    ∧ shown = filter (λ c, code c ∉ STRICT_ONLY_CODES) all.
Proof.
  intros Hs Hs' Hcall Hcall' Hparse.
  rewrite (analyzeFile_diagnostics _ _ _ _ _ _ Hcall Hparse).
  rewrite (analyzeFile_diagnostics _ _ _ _ _ _ Hcall' Hparse).
  eexists _, _. split; [done|]. split; [done|].
  by apply omap_commentOf_default.
Qed.



Lemma analyzeFile_returns filePath content siblings options :
  ∃ comments,
    analyzeFile analyzeSource filePath content siblings options
    = Returned comments.
Proof.
  unfold analyzeFile. destruct (analyzeSource _ _ _ _) as [result|]; [|eauto].
  destruct (truthy (parseError result)); eauto.
Qed.

(** The comments of one file: where they come from. *)
Lemma analyzeFile_comments filePath content siblings options comments :
  analyzeFile analyzeSource filePath content siblings options
  = Returned comments →
  Forall (λ c, path c = filePath) comments
  ∧ ((∃ c, comments = [c] ∧ line c = 1)
     ∨ ∃ result,
         analyzeSource content (fixpoint options) (strict options) siblings
         = Returned result
         ∧ comments = omap (commentOf filePath options) (diagnostics result)).
Proof.
  unfold analyzeFile.
  destruct (analyzeSource _ _ _ _) as [result|] eqn:Hcall.
  - destruct (truthy (parseError result)).
    + intros [= <-]. split; [by repeat constructor|]. left. by eexists.
    + intros [= <-]. rewrite foldl_pushComment. cbn [app]. split.
      * apply Forall_forall. intros c (d & _ & Hd)%list_elem_of_omap.
        unfold commentOf in Hd. destruct (_ && _); [done|].
        by injection Hd as <-.
      * right. by exists result.
  - intros [= <-]. split; [by repeat constructor|]. left. by eexists.
Qed.

(** X12. Every comment [analyzeFile] returns is about the analysed file,
    and it is either the single synthetic comment at line 1 or the comment
    of a diagnostic the engine reported, carrying that diagnostic's line,
    code and message: no comment is invented and there are at most as
    many comments as diagnostics. *)
Theorem analyzeFile_comments_stem_from_diagnostics
    (filePath content : string) (siblings : list (string * string))
    (options : Options) (comments : list ReviewComment) :
  analyzeFile analyzeSource filePath content siblings options
  = Returned comments →
  Forall (λ c, path c = filePath) comments
  ∧ ((∃ c, comments = [c] ∧ line c = 1
           ∧ (code c = "W_INTERNAL_ERROR" ∨ code c = "W_PARSE_ERROR"))
     ∨ ∃ result,
         analyzeSource content (fixpoint options) (strict options) siblings
         = Returned result
         ∧ (length comments ≤ length (diagnostics result))%nat
         ∧ Forall (λ c, ∃ d, d ∈ diagnostics result
                             ∧ line c = d_line d ∧ code c = d_code d
                             ∧ body c = d_message d
                             ∧ severity c = classifySeverity (d_code d))
             comments).
Proof.
  intros Hret. split; [by eapply analyzeFile_comments|].
  unfold analyzeFile in Hret.
  destruct (analyzeSource _ _ _ _) as [result|] eqn:Hcall.
  - destruct (truthy (parseError result)).
    + injection Hret as <-. left. eexists. split; [done|]. auto.
    + injection Hret as <-. right. exists result. split; [done|].
      rewrite foldl_pushComment. cbn [app]. split.
      * rewrite <- (length_fmap Some (omap _ _)).
        generalize (diagnostics result). intros ds.
        induction ds as [|d ds IH]; [done|].
        change (omap (commentOf filePath options) (d :: ds))
          with (match commentOf filePath options d with
                | Some c => c :: omap (commentOf filePath options) ds
                | None => omap (commentOf filePath options) ds
                end).
        destruct (commentOf filePath options d); cbn [fmap list_fmap length] in *;
          lia.
      * apply Forall_forall. intros c (d & Hin & Hd)%list_elem_of_omap.
        unfold commentOf in Hd. destruct (_ && _); [done|].
        injection Hd as <-. by exists d.
  - injection Hret as <-. left. eexists. split; [done|]. auto.
Qed.



End Engine.

Lemma strict_mode_keeps_every_diagnostic_witness :
  analyzeFile Samples.sampleEngine "src/solve.m" "y = g(x);" []
    {| strict := true; fixpoint := false |}
  = Returned
      [ {| path := "src/solve.m"; line := 1; code := "W_UNKNOWN_FUNCTION";
           body := "unknown function g"; severity := warning |};
        {| path := "src/solve.m"; line := 2; code := "W_RESHAPE_MISMATCH";
           body := "reshape of 6 elements into 4"; severity := error |} ].
Proof.
  exact (strict_mode_keeps_every_diagnostic Samples.sampleEngine
           "src/solve.m" "y = g(x);" [] {| strict := true; fixpoint := false |}
           Samples.twoDiagnostics eq_refl eq_refl eq_refl).
Defined.

Lemma default_mode_is_strict_mode_filtered_witness :
  ∃ shown all,
    analyzeFile Samples.sampleEngine "src/solve.m" "y = g(x);" []
      {| strict := false; fixpoint := false |} = Returned shown
    ∧ analyzeFile Samples.sampleEngine "src/solve.m" "y = g(x);" []
        {| strict := true; fixpoint := false |} = Returned all
    ∧ shown = filter (λ c, code c ∉ STRICT_ONLY_CODES) all.
Proof.
  exact (default_mode_is_strict_mode_filtered Samples.sampleEngine
           "src/solve.m" "y = g(x);" []
           {| strict := false; fixpoint := false |}
           {| strict := true; fixpoint := false |}
           Samples.twoDiagnostics eq_refl eq_refl eq_refl eq_refl eq_refl).
Defined.

Lemma analyzeFile_comments_stem_from_diagnostics_witness :
  Forall (λ c, path c = "src/solve.m")
    [ {| path := "src/solve.m"; line := 2; code := "W_RESHAPE_MISMATCH";
         body := "reshape of 6 elements into 4"; severity := error |} ].
Proof.
  refine (proj1 (analyzeFile_comments_stem_from_diagnostics
                   Samples.sampleEngine "src/solve.m" "y = g(x);" []
                   {| strict := false; fixpoint := false |} _ _)).
  vm_compute. reflexivity.
Defined.

End AnalyzerMore.

(** ** Review batcher: accounting, payload and the role of the index *)

Module ReviewMore.
Import Js Analyzer Review ReviewFacts.

(** Every comment is inline-eligible or out of the diff. *)
Lemma eligible_offDiff_perm changedLines (comments : list ReviewComment) :
  (eligible changedLines comments ++ offDiff changedLines comments)%list
  ≡ₚ comments.
Proof. unfold eligible, offDiff. apply filter_app_complement. Qed.

Lemma eligible_offDiff_len changedLines (comments : list ReviewComment) :
  len (eligible changedLines comments) + len (offDiff changedLines comments)
  = len comments.
Proof.
  unfold len. rewrite <- (Permutation_length (eligible_offDiff_perm changedLines comments)).
  rewrite length_app. lia.
Qed.

Lemma overflowOf_max (inline : list ReviewComment) :
  overflowOf inline = Z.max 0 (len inline - 50).
Proof. unfold overflowOf, inlineToPost, len. rewrite length_take. lia. Qed.


(** X13. Every comment is accounted for exactly once: the comments posted
    inline, the inline overflow and the out-of-diff comments add up to the
    input, and the overflow is the number of inline-eligible comments
    beyond 50. *)
Theorem every_comment_is_posted_overflow_or_out_of_diff
    (comments : list ReviewComment) (changedLines : gmap string (gset Z))
    (filterToDiff : bool) :
  overflowOf (eligible changedLines comments)
  = Z.max 0 (len (eligible changedLines comments) - 50)
  ∧ len (postedInline changedLines comments filterToDiff)
    + overflowOf (eligible changedLines comments)
    + len (offDiff changedLines comments)
    = len comments.
Proof.
  split; [apply overflowOf_max|].
  rewrite postedInline_capped, <- (eligible_offDiff_len changedLines comments).
  unfold overflowOf, inlineToPost. lia.
Qed.

(** X14. The parts of the body, from the input: the overflow line is
    there exactly when more than 50 comments are inline-eligible and
    reports their number minus 50; the out-of-diff summary is there
    exactly when [filterToDiff] is true and some comment is out of the
    diff; the overflow line comes first. *)
Theorem body_parts_from_input
    (comments : list ReviewComment) (changedLines : gmap string (gset Z))
    (filterToDiff : bool) :
  composedParts changedLines comments filterToDiff
  = ((if 50 <? len (eligible changedLines comments)
      then [overflowLine (len (eligible changedLines comments) - 50)]
      else [])
     ++ (if filterToDiff && (0 <? len (offDiff changedLines comments))
         then [outOfDiffSummary (offDiff changedLines comments)]
         else []))%list.
Proof.
  rewrite composedParts_filters. unfold bodyParts. f_equal.
  - rewrite overflowOf_max.
    destruct (Z.ltb_spec 50 (len (eligible changedLines comments)));
      destruct (Z.ltb_spec 0 (Z.max 0 (len (eligible changedLines comments) - 50)));
      try lia; [|done].
    f_equal. f_equal. lia.
  - by destruct filterToDiff.
Qed.

Lemma eligible_nil_offDiff_nil changedLines (comments : list ReviewComment) :
  eligible changedLines comments = [] → offDiff changedLines comments = [] →
  comments = [].
Proof.
  intros He Ho. pose proof (eligible_offDiff_perm changedLines comments) as Hp.
  rewrite He, Ho in Hp. by apply Permutation_nil in Hp.
Qed.

(** X15. When nothing is posted. With [filterToDiff = true] the
    create-review call is skipped only for an empty comment list; with
    [filterToDiff = false] it is skipped exactly when no comment lies on a
    diff line, however many comments there are. *)
Theorem nothing_posted_iff
    (owner repo : string) (pullNumber : Z) (commitSha : string)
    (comments : list ReviewComment) (changedLines : gmap string (gset Z)) :
  (postReview owner repo pullNumber commitSha comments changedLines true
   = None ↔ comments = [])
  ∧ (postReview owner repo pullNumber commitSha comments changedLines false
     = None ↔ eligible changedLines comments = []).
Proof.
  rewrite !postReview_None, !postedInline_capped, !composedParts_filters.
  unfold bodyParts, outOfDiffToShow. split.
  - split.
    + intros [Hposted Hparts].
      assert (eligible changedLines comments = []) as He.
      { destruct (eligible changedLines comments); [done|discriminate]. }
      rewrite He in Hparts. cbn in Hparts.
      apply eligible_nil_offDiff_nil with changedLines; [done|].
      destruct (offDiff changedLines comments); [done|discriminate].
    + intros ->. done.
  - split.
    + intros [Hposted _].
      destruct (eligible changedLines comments); [done|discriminate].
    + intros ->. done.
Qed.

Lemma nothing_posted_iff_witness :
  postReview "octo" "lab" 7 "c0ffee"
    [ {| path := "src/solve.m"; line := 9; code := "W_RESHAPE_MISMATCH";
         body := "reshape"; severity := error |} ]
    {[ "src/solve.m" := {[ 2 ]} ]} false
  = None.
Proof.
  apply (proj2 (proj2 (nothing_posted_iff "octo" "lab" 7 "c0ffee"
           [ {| path := "src/solve.m"; line := 9; code := "W_RESHAPE_MISMATCH";
                body := "reshape"; severity := error |} ]
           {[ "src/solve.m" := {[ 2 ]} ]}))).
  vm_compute. reflexivity.
Defined.


Lemma toInline_onDiff changedLines c :
  onDiff changedLines c = true →
  ic_side (toInline c) = "RIGHT"
  ∧ ∃ fileLines, changedLines !! ic_path (toInline c) = Some fileLines
                 ∧ ic_line (toInline c) ∈ fileLines.
Proof.
  unfold onDiff. cbn [toInline ic_side ic_path ic_line]. intros Hc.
  split; [done|]. destruct (changedLines !! path c) as [fileLines|]; [|done].
  exists fileLines. split; [done|]. by apply bool_decide_eq_true in Hc.
Qed.

Lemma postReview_payload
    (owner repo : string) (pullNumber : Z) (commitSha : string)
    (comments : list ReviewComment) (changedLines : gmap string (gset Z))
    (filterToDiff : bool) (sub : ReviewSubmission) :
  postReview owner repo pullNumber commitSha comments changedLines
    filterToDiff = Some sub →
  rs_owner sub = owner ∧ rs_repo sub = repo
  ∧ rs_pull_number sub = pullNumber ∧ rs_commit_id sub = commitSha
  ∧ rs_event sub = "COMMENT"
  ∧ Forall (λ ic, ic_side ic = "RIGHT"
                  ∧ ∃ fileLines, changedLines !! ic_path ic = Some fileLines
                                 ∧ ic_line ic ∈ fileLines)
      (rs_comments sub).
Proof.
  intros Hsub. pose proof (postReview_Some _ _ _ _ _ _ _ _ Hsub) as [Hc _].
  unfold postReview in Hsub. destruct (_ && _); [done|].
  injection Hsub as <-. cbn [rs_owner rs_repo rs_pull_number rs_commit_id
                             rs_event rs_comments] in *.
  repeat (split; [done|]).
  rewrite postedInline_capped. apply Forall_forall.
  intros ic (c & -> & Hin)%list_elem_of_fmap.
  apply toInline_onDiff. by apply subseteq_take, eligible_onDiff in Hin.
Qed.

(** X16. The payload of the create-review call: the repository, pull
    request and commit are passed through, the event is [COMMENT], and
    every inline comment is on the [RIGHT] side at a path and line that the
    index contains. *)
Theorem submission_is_a_comment_review_on_diff_lines
    (owner repo : string) (pullNumber : Z) (commitSha : string)
    (comments : list ReviewComment) (changedLines : gmap string (gset Z))
    (filterToDiff : bool) (sub : ReviewSubmission) :
  postReview owner repo pullNumber commitSha comments changedLines
    filterToDiff = Some sub →
  rs_owner sub = owner ∧ rs_repo sub = repo
  ∧ rs_pull_number sub = pullNumber ∧ rs_commit_id sub = commitSha
  ∧ rs_event sub = "COMMENT"
  ∧ Forall (λ ic, ic_side ic = "RIGHT"
                  ∧ ∃ fileLines, changedLines !! ic_path ic = Some fileLines
                                 ∧ ic_line ic ∈ fileLines)
      (rs_comments sub).
Proof. apply postReview_payload. Qed.

Lemma submission_is_a_comment_review_on_diff_lines_witness :
  ∃ sub,
    postReview "octo" "lab" 7 "c0ffee" sixtyComments {[ "a.m" := {[ 2 ]} ]}
      true = Some sub
    ∧ rs_event sub = "COMMENT"
    ∧ Forall (λ ic, ic_side ic = "RIGHT"
                    ∧ ∃ fileLines,
                        ({[ "a.m" := {[ 2 ]} ]} : gmap string (gset Z))
                          !! ic_path ic = Some fileLines
                        ∧ ic_line ic ∈ fileLines)
        (rs_comments sub).
Proof.
  destruct (postReview "octo" "lab" 7 "c0ffee" sixtyComments
              {[ "a.m" := {[ 2 ]} ]} true) as [sub|] eqn:Hsub.
  - exists sub. split; [reflexivity|].
    destruct (submission_is_a_comment_review_on_diff_lines "octo" "lab" 7
                "c0ffee" sixtyComments {[ "a.m" := {[ 2 ]} ]} true sub Hsub)
      as (_ & _ & _ & _ & Hevent & Hall).
    split; [exact Hevent|exact Hall].
  - vm_compute in Hsub. discriminate Hsub.
Defined.


(** X27. The rendering of a comment shows its severity: two comments
    that render to the same text have the same severity. *)
Theorem rendered_comment_determines_severity (c1 c2 : ReviewComment) :
  formatCommentBody c1 = formatCommentBody c2 → severity c1 = severity c2.
Proof.
  unfold formatCommentBody. intros Heq.
  apply (f_equal (String.get 1)) in Heq.
  destruct (severity c1), (severity c2); try done;
    vm_compute in Heq; discriminate Heq.
Qed.

Lemma rendered_comment_determines_severity_witness :
  severity {| path := "a.m"; line := 2; code := "W_RESHAPE_MISMATCH";
              body := "reshape"; severity := error |}
  = severity {| path := "b.m"; line := 5; code := "W_RESHAPE_MISMATCH";
                body := "reshape"; severity := error |}.
Proof.
  apply (rendered_comment_determines_severity
           {| path := "a.m"; line := 2; code := "W_RESHAPE_MISMATCH";
              body := "reshape"; severity := error |}
           {| path := "b.m"; line := 5; code := "W_RESHAPE_MISMATCH";
              body := "reshape"; severity := error |}).
  vm_compute. reflexivity.
Defined.

Lemma filter_onDiff_ext changedLines changedLines' (comments : list ReviewComment) :
  (∀ c, c ∈ comments → onDiff changedLines c = onDiff changedLines' c) →
  eligible changedLines comments = eligible changedLines' comments
  ∧ offDiff changedLines comments = offDiff changedLines' comments.
Proof.
  unfold eligible, offDiff. induction comments as [|c comments IH]; [done|].
  intros Hext. destruct IH as [IH1 IH2].
  { intros c' Hc'. apply Hext. by right. }
  pose proof (Hext c ltac:(by left)) as Hc.
  destruct (onDiff changedLines c) eqn:H1.
  - rewrite !filter_cons_True, !(filter_cons_False (λ c, _ ≠ true))
      by (rewrite <- ?Hc, ?H1; auto).
    by rewrite IH1, IH2.
  - rewrite !filter_cons_False, !(filter_cons_True (λ c, _ ≠ true))
      by (rewrite <- ?Hc, ?H1; auto).
    by rewrite IH1, IH2.
Qed.

Lemma postReview_ext owner repo pullNumber commitSha comments changedLines
    changedLines' filterToDiff :
  (∀ c, c ∈ comments → onDiff changedLines c = onDiff changedLines' c) →
  postReview owner repo pullNumber commitSha comments changedLines filterToDiff
  = postReview owner repo pullNumber commitSha comments changedLines'
      filterToDiff.
Proof.
  intros [He Ho]%filter_onDiff_ext. unfold postReview.
  by rewrite !postedInline_capped, !composedParts_filters, He, Ho.
Qed.

(** X17. The index matters only through the membership test on the
    comments at hand. In particular a file that is absent from the index
    and a file mapped to the empty set are treated alike: neither has an
    inline-eligible line. *)
Theorem absent_key_behaves_like_empty_set
    (owner repo : string) (pullNumber : Z) (commitSha : string)
    (comments : list ReviewComment) (changedLines : gmap string (gset Z))
    (filterToDiff : bool) (name : string) :
  changedLines !! name = None →
  postReview owner repo pullNumber commitSha comments
    (<[ name := ∅ ]> changedLines) filterToDiff
  = postReview owner repo pullNumber commitSha comments changedLines
      filterToDiff.
Proof.
  intros Hname. apply postReview_ext. intros c _. unfold onDiff.
  destruct (decide (name = path c)) as [->|Hne].
  - rewrite lookup_insert_eq, Hname. apply bool_decide_eq_false.
    apply not_elem_of_empty.
  - by rewrite lookup_insert_ne.
Qed.

Lemma absent_key_behaves_like_empty_set_witness :
  postReview "octo" "lab" 7 "c0ffee" sixtyComments
    (<[ "b.m" := ∅ ]> {[ "a.m" := {[ 2 ]} ]}) true
  = postReview "octo" "lab" 7 "c0ffee" sixtyComments
      {[ "a.m" := {[ 2 ]} ]} true.
Proof.
  apply (absent_key_behaves_like_empty_set "octo" "lab" 7 "c0ffee"
           sixtyComments {[ "a.m" := {[ 2 ]} ]} true "b.m").
  vm_compute. reflexivity.
Defined.


End ReviewMore.

(** ** The run: pagination, siblings, analysis loop and outcome *)

#[local] Set Warnings "-clear-no-such-hyp".

Module MainFacts.
Import Js Diff Analyzer Review Main.
Import DiffFacts DiffMore AnalyzerFacts AnalyzerMore ReviewFacts ReviewMore.

(** X18. Pagination stops at the first page with fewer than 100 entries
    and returns the pages up to it, in order, after what was already
    collected: with full pages [pages] followed by a short page [last],
    any fuel above the number of full pages gives
    [changedFiles ++ concat pages ++ last]. *)
Theorem pagination_returns_pages_up_to_first_short_one {A}
    (listFiles : Z → Outcome (list A)) (pages : list (list A))
    (last changedFiles : list A) (page : Z) (fuel : nat) :
  (∀ i data, pages !! i = Some data →
             listFiles (page + Z.of_nat i) = Returned data ∧ 100 ≤ len data) →
  listFiles (page + len pages) = Returned last →
  len last < 100 →
  (length pages < fuel)%nat →
  fetchChangedFiles fuel listFiles changedFiles page
  = Some (Returned (changedFiles ++ concat pages ++ last)%list).
Proof.
  revert changedFiles page fuel.
  induction pages as [|data pages IH]; intros changedFiles page fuel
    Hfull Hlast Hshort Hfuel.
  - destruct fuel as [|fuel]; [cbn in Hfuel; lia|].
    cbn [fetchChangedFiles]. unfold len in Hlast. cbn [length] in Hlast.
    rewrite Z.add_0_r in Hlast. rewrite Hlast.
    apply Z.ltb_lt in Hshort. by rewrite Hshort.
  - destruct fuel as [|fuel]; [cbn in Hfuel; lia|].
    cbn [fetchChangedFiles].
    destruct (Hfull 0%nat data eq_refl) as [Hcall Hlen].
    rewrite Z.add_0_r in Hcall. rewrite Hcall.
    destruct (Z.ltb_spec (len data) 100) as [|_]; [lia|].
    rewrite (IH (changedFiles ++ data)%list (page + 1) fuel).
    + cbn [concat]. by rewrite <- !app_assoc.
    + intros i d Hi. destruct (Hfull (S i) d Hi) as [Hc Hl].
      split; [|done]. rewrite <- Hc. f_equal. lia.
    + rewrite <- Hlast. f_equal. unfold len. cbn [length]. lia.
    + done.
    + cbn [length] in Hfuel. lia.
Qed.

(** X19. Pagination has no page limit of its own: as long as every page
    from [page] on is full, no amount of fuel lets the loop finish. *)
Theorem pagination_never_stops_on_full_pages {A}
    (listFiles : Z → Outcome (list A)) (changedFiles : list A) (page : Z)
    (fuel : nat) :
  (∀ p, page ≤ p → ∃ data, listFiles p = Returned data ∧ 100 ≤ len data) →
  fetchChangedFiles fuel listFiles changedFiles page = None.
Proof.
  revert changedFiles page.
  induction fuel as [|fuel IH]; intros changedFiles page Hfull; [done|].
  cbn [fetchChangedFiles].
  destruct (Hfull page ltac:(lia)) as (data & -> & Hlen).
  destruct (Z.ltb_spec (len data) 100) as [|_]; [lia|].
  apply IH. intros p Hp. apply Hfull. lia.
Qed.

Lemma endsWith_app name suffix : endsWith (name ++ suffix) suffix = true.
Proof.
  induction name as [|c name IH].
  - rewrite append_nil. destruct suffix; cbn [endsWith];
      by rewrite String.eqb_refl.
  - rewrite append_cons. cbn [endsWith]. rewrite IH. apply orb_true_r.
Qed.

Lemma replaceTrailingM_endsWith entry :
  endsWith entry ".m" = true → entry = replaceTrailingM entry ++ ".m".
Proof.
  induction entry as [|c r IH]; [done|].
  cbn [endsWith replaceTrailingM].
  destruct (String.eqb_spec (String c r) ".m") as [->|Hne]; [done|].
  cbn [orb]. intros Hr. rewrite append_cons. by rewrite <- IH.
Qed.

Lemma replaceTrailingM_app name : replaceTrailingM (name ++ ".m") = name.
Proof.
  induction name as [|c name IH]; [done|].
  rewrite append_cons. cbn [replaceTrailingM].
  destruct (String.eqb_spec (String c (name ++ ".m")) ".m") as [Heq|_].
  - exfalso. injection Heq as _ Heq.
    destruct name as [|? [|? ?]]; discriminate.
  - by rewrite IH.
Qed.

Section Run.

Variable env : Env.

Lemma foldl_siblingStep dir baseName entries siblings name content :
  (name, content) ∈ foldl (siblingStep env dir baseName)
                      siblings entries
  ↔ (name, content) ∈ siblings
    ∨ ∃ entry, entry ∈ entries ∧ entry ≠ baseName
               ∧ endsWith entry ".m" = true
               ∧ readFileSync env (pathJoin env dir entry) = Returned content
               ∧ name = replaceTrailingM entry.
Proof.
  revert siblings. induction entries as [|entry entries IH]; intros siblings;
    cbn [foldl].
  { split; [auto|]. intros [?|(e & He & _)]; [done|]. by apply elem_of_nil in He. }
  rewrite IH. clear IH. unfold siblingStep.
  setoid_rewrite elem_of_cons.
  destruct (String.eqb_spec entry baseName) as [->|Hne].
  { split; [naive_solver|]. intros [?|(e & [->|?] & ? & ?)]; naive_solver. }
  destruct (endsWith entry ".m") eqn:Hm; cbn [negb].
  - destruct (readFileSync env (pathJoin env dir entry)) as [c|] eqn:Hread.
    + rewrite elem_of_app, list_elem_of_singleton. split.
      * intros [[?|[= -> ->]]|(e & ? & ?)]; [by left|right..].
        -- exists entry. naive_solver.
        -- exists e. naive_solver.
      * intros [?|(e & [->|?] & ? & ? & Hr & ->)]; [by left; left| |].
        -- left; right. congruence.
        -- right. exists e. naive_solver.
    + split; [naive_solver|].
      intros [?|(e & [->|?] & ? & ? & Hr & ?)]; [by left|congruence|].
      right. exists e. naive_solver.
  - split; [naive_solver|].
    intros [?|(e & [->|?] & ? & ? & ?)]; [by left|congruence|].
    right. exists e. naive_solver.
Qed.

(** X20. The siblings of a file are the other [.m] entries of its
    directory that can be read, named without the extension: [(name,
    content)] is a sibling exactly when [name.m] is a directory entry
    other than the file itself whose content can be read and is
    [content]. When the directory cannot be listed there are none. *)
Theorem siblings_are_the_other_readable_m_files
    (filePath workspace name content : string) :
  let dir := dirname env (pathJoin env workspace filePath) in
  let baseName := basename env (pathJoin env workspace filePath) in
  ((name, content)
     ∈ readSiblings env filePath workspace
   ↔ ∃ entries, readdirSync env dir = Returned entries
                ∧ name ++ ".m" ∈ entries ∧ name ++ ".m" ≠ baseName
                ∧ readFileSync env (pathJoin env dir (name ++ ".m"))
                  = Returned content)
  ∧ (readdirSync env dir = Threw →
     readSiblings env filePath workspace = []).
Proof.
  intros dir baseName. unfold readSiblings. fold dir baseName.
  destruct (readdirSync env dir) as [entries|]; [|split; [|done]].
  - split; [|done]. rewrite foldl_siblingStep. split.
    + intros [Hnil|(entry & Hin & Hne & Hm & Hread & ->)].
      { by apply elem_of_nil in Hnil. }
      exists entries. rewrite <- (replaceTrailingM_endsWith entry Hm). auto.
    + intros (? & [= <-] & Hin & Hne & Hread). right.
      exists (name ++ ".m"). rewrite endsWith_app, replaceTrailingM_app. auto.
  - split; [by intros ?%elem_of_nil|]. by intros (? & ? & _).
Qed.

Lemma collectStep_cases config workspace acc file :
  (analysable env workspace file = false
   ∧ ∃ entry, collectStep env config workspace acc file
              = Returned {| allComments := allComments acc;
                            filesAnalyzed := filesAnalyzed acc;
                            logged := (logged acc ++ [entry])%list |})
  ∨ (analysable env workspace file = true
     ∧ ∃ comments,
         Forall (λ c, path c = filename file) comments
         ∧ collectStep env config workspace acc file
           = Returned {| allComments := (allComments acc ++ comments)%list;
                         filesAnalyzed := filesAnalyzed acc + 1;
                         logged := logged acc |}).
Proof.
  unfold collectStep, analysable.
  destruct (readFileSync env (pathJoin env workspace (filename file)))
    as [content|];
    [|left; eauto].
  destruct (includesChar content "000"); [left; eauto|right].
  split; [done|].
  destruct (analyzeFile_returns (analyzeSource env) (filename file) content
              (readSiblings env (filename file) workspace)
              {| strict := cfg_strict config; fixpoint := cfg_fixpoint config |})
    as [comments Hret].
  rewrite Hret. exists comments. split; [|done].
  by eapply analyzeFile_comments.
Qed.

Lemma collect_spec config workspace mFiles acc :
  ∃ col,
    collect env config workspace acc mFiles = Returned col
    ∧ filesAnalyzed col
      = filesAnalyzed acc
        + len (filter (λ f, analysable env workspace f = true) mFiles)
    ∧ len (logged col)
      = len (logged acc)
        + len (filter (λ f, analysable env workspace f ≠ true) mFiles)
    ∧ ∃ added,
        allComments col = (allComments acc ++ added)%list
        ∧ Forall (λ c, ∃ f, f ∈ mFiles ∧ analysable env workspace f = true
                            ∧ path c = filename f) added.
Proof.
  revert acc. induction mFiles as [|file mFiles IH]; intros acc.
  { exists acc. cbn [collect]. rewrite !filter_nil. unfold len. cbn [length].
    split; [done|]. split; [lia|]. split; [lia|].
    exists []. by rewrite app_nil_r. }
  cbn [collect].
  destruct (collectStep_cases config workspace acc file)
    as [(Hno & entry & ->)|(Hyes & comments & Hpath & ->)].
  - destruct (IH {| allComments := allComments acc;
                    filesAnalyzed := filesAnalyzed acc;
                    logged := (logged acc ++ [entry])%list |})
      as (col & -> & Hn & Hl & added & Hc & Hadded).
    exists col. cbn [allComments filesAnalyzed logged] in *.
    split; [done|].
    rewrite filter_cons_False, (filter_cons_True (λ f, _ ≠ true))
      by (rewrite Hno; auto).
    split; [done|]. split.
    { rewrite Hl. unfold len. rewrite length_app. cbn [length]. lia. }
    exists added. split; [done|].
    eapply Forall_impl; [exact Hadded|]. cbn.
    intros c (f & ? & ? & ?). exists f. split; [by right|done].
  - destruct (IH {| allComments := (allComments acc ++ comments)%list;
                    filesAnalyzed := filesAnalyzed acc + 1;
                    logged := logged acc |})
      as (col & -> & Hn & Hl & added & Hc & Hadded).
    exists col. cbn [allComments filesAnalyzed logged] in *.
    split; [done|].
    rewrite filter_cons_True, (filter_cons_False (λ f, _ ≠ true))
      by (rewrite Hyes; auto).
    split. { rewrite Hn. unfold len. cbn [length]. lia. }
    split; [done|].
    exists (comments ++ added)%list. split; [by rewrite Hc, app_assoc|].
    apply Forall_app. split.
    + eapply Forall_impl; [exact Hpath|]. cbn. intros c Hcp.
      exists file. split; [by left|done].
    + eapply Forall_impl; [exact Hadded|]. cbn.
      intros c (f & ? & ? & ?). exists f. split; [by right|done].
Qed.

Lemma analysis_loop_skips_unreadable_and_binary_files_aux
    (config : ActionConfig) (workspace : string) (mFiles : list PullFile) :
  ∃ col,
    collect env config workspace
      {| allComments := []; filesAnalyzed := 0; logged := [] |} mFiles
    = Returned col
    ∧ filesAnalyzed col
      = len (filter (λ f, analysable env workspace f = true) mFiles)
    ∧ len (logged col)
      = len (filter (λ f, analysable env workspace f ≠ true) mFiles)
    ∧ Forall (λ c, ∃ f, f ∈ mFiles ∧ analysable env workspace f = true
                        ∧ path c = filename f) (allComments col).
Proof.
  destruct (collect_spec config workspace mFiles
              {| allComments := []; filesAnalyzed := 0; logged := [] |})
    as (col & Hcol & Hn & Hl & added & Hc & Hadded).
  exists col. cbn [allComments filesAnalyzed logged app] in *.
  split; [done|]. split; [lia|]. split; [unfold len in *; cbn [length] in *; lia|].
  by rewrite Hc.
Qed.

(** X21. The analysis loop never aborts and skips what it cannot
    analyse: a file that cannot be read or that contains a NUL character
    adds one log entry and nothing else; the files analysed are counted;
    and every comment belongs to a file that was analysed. *)
Theorem analysis_loop_skips_unreadable_and_binary_files
    (config : ActionConfig) (workspace : string) (mFiles : list PullFile) :
  ∃ col,
    collect env config workspace
      {| allComments := []; filesAnalyzed := 0; logged := [] |} mFiles
    = Returned col
    ∧ filesAnalyzed col
      = len (filter (λ f, analysable env workspace f = true) mFiles)
    ∧ len (logged col)
      = len (filter (λ f, analysable env workspace f ≠ true) mFiles)
    ∧ Forall (λ c, ∃ f, f ∈ mFiles ∧ analysable env workspace f = true
                        ∧ path c = filename f) (allComments col).
Proof. apply analysis_loop_skips_unreadable_and_binary_files_aux. Qed.

Lemma mFilesOf_elem paths changedFiles file :
  file ∈ mFilesOf env paths changedFiles
  ↔ file ∈ changedFiles ∧ status file ≠ "removed"
    ∧ endsWith (filename file) ".m" = true
    ∧ minimatch env (filename file) paths = true.
Proof.
  unfold mFilesOf. rewrite list_elem_of_filter. unfold isMFile.
  destruct (String.eqb_spec (status file) "removed") as [Hs|Hs].
  { split; [by intros [? _]|]. by intros (_ & ? & _). }
  destruct (endsWith (filename file) ".m"); cbn [negb].
  - tauto.
  - split; [by intros [? _]|]. by intros (_ & _ & ? & _).
Qed.

Lemma run_index_is_Some
    (paths : string) (changedFiles : list PullFile) (name : string) :
  is_Some (parseChangedLines (mFilesOf env paths changedFiles) !! name)
  ↔ ∃ file p, file ∈ changedFiles ∧ filename file = name
              ∧ status file ≠ "removed" ∧ endsWith name ".m" = true
              ∧ minimatch env name paths = true
              ∧ patch file = Some p ∧ p ≠ "".
Proof.
  rewrite parseChangedLines_is_Some. split.
  - intros (file & p & (Hin & Hst & Hm & Hglob)%mFilesOf_elem & <- & _ & Hp & Hne).
    by exists file, p.
  - intros (file & p & Hin & <- & Hst & Hm & Hglob & Hp & Hne).
    exists file, p. split; [by apply mFilesOf_elem|done].
Qed.

(** X22. The line index [run] builds has an entry exactly for the names
    of the changed files that are not removed, end in [.m], match the
    [paths] glob and have a non-empty patch. *)
Theorem run_indexes_the_matching_m_files_with_a_patch
    (paths : string) (changedFiles : list PullFile) (name : string) :
  is_Some (parseChangedLines (mFilesOf env paths changedFiles) !! name)
  ↔ ∃ file p, file ∈ changedFiles ∧ filename file = name
              ∧ status file ≠ "removed" ∧ endsWith name ".m" = true
              ∧ minimatch env name paths = true
              ∧ patch file = Some p ∧ p ≠ "".
Proof. apply run_index_is_Some. Qed.




Lemma runOn_cases config pr workspace changedFiles :
  ∃ col,
    collect env config workspace
      {| allComments := []; filesAnalyzed := 0; logged := [] |}
      (mFilesOf env (cfg_paths config) changedFiles) = Returned col
    ∧ ((mFilesOf env (cfg_paths config) changedFiles = []
        ∧ runOn env config pr workspace changedFiles
          = Returned nothingToAnalyze)
       ∨ (mFilesOf env (cfg_paths config) changedFiles ≠ []
          ∧ runOn env config pr workspace changedFiles
            = Returned
                (conclude env config pr
                   (parseChangedLines
                      (mFilesOf env (cfg_paths config) changedFiles))
                   col))).
Proof.
  destruct (collect_spec config workspace
              (mFilesOf env (cfg_paths config) changedFiles)
              {| allComments := []; filesAnalyzed := 0; logged := [] |})
    as (col & Hcol & _).
  exists col. split; [done|]. unfold runOn.
  destruct (len (mFilesOf env (cfg_paths config) changedFiles) =? 0) eqn:Hlen.
  - left. by apply len_nil_iff in Hlen.
  - right. rewrite Hcol. split; [|done]. intros Hnil.
    rewrite Hnil in Hlen. done.
Qed.





(** X26. The review of a run: the create-review call, when one is made,
    names the repository, pull request and head commit of the event, has
    the event [COMMENT], and each inline comment is on the [RIGHT] side of
    a changed file that is not removed, ends in [.m], matches the [paths]
    glob and has a non-empty patch. *)
Theorem review_of_a_run_is_on_changed_m_files
    (config : ActionConfig) (pr : PullContext) (workspace : string)
    (changedFiles : list PullFile) (r : RunResult) (sub : ReviewSubmission) :
  runOn env config pr workspace changedFiles = Returned r →
  reviewCall r = Some sub →
  rs_owner sub = pr_owner pr ∧ rs_repo sub = pr_repo pr
  ∧ rs_pull_number sub = pr_number pr ∧ rs_commit_id sub = pr_head_sha pr
  ∧ rs_event sub = "COMMENT"
  ∧ Forall (λ ic, ic_side ic = "RIGHT"
                  ∧ ∃ file p, file ∈ changedFiles
                              ∧ filename file = ic_path ic
                              ∧ status file ≠ "removed"
                              ∧ endsWith (ic_path ic) ".m" = true
                              ∧ minimatch env (ic_path ic) (cfg_paths config)
                                = true
                              ∧ patch file = Some p ∧ p ≠ "")
      (rs_comments sub).
Proof.
  intros Hrun Hcall.
  destruct (runOn_cases config pr workspace changedFiles)
    as (col & Hcol & [[Hnil Hrun']|[Hne Hrun']]);
    rewrite Hrun' in Hrun; injection Hrun as <-; [done|].
  cbn [conclude reviewCall] in Hcall.
  destruct (0 <? len (allComments col)); [|done].
  unfold tryPostReview in Hcall.
  destruct (postReview _ _ _ _ _ _ _) as [sub'|] eqn:Hpost; [|done].
  assert (sub' = sub) as -> by (by destruct (createReview env sub'); injection Hcall).
  apply postReview_payload in Hpost as (-> & -> & -> & -> & -> & Hall).
  repeat (split; [done|]).
  eapply Forall_impl; [exact Hall|]. cbn.
  intros ic (Hside & fileLines & Hlook & _). split; [done|].
  apply run_index_is_Some. by rewrite Hlook.
Qed.

End Run.

Lemma pagination_returns_pages_up_to_first_short_one_witness :
  fetchChangedFiles 2 Samples.twoPages [] 1
  = Some (Returned ([] ++ concat [Samples.fullPage]
                    ++ [Samples.readmeFile])%list).
Proof.
  apply (pagination_returns_pages_up_to_first_short_one Samples.twoPages
           [Samples.fullPage] [Samples.readmeFile] [] 1 2).
  - intros [|i] data Hdata; [|by destruct i].
    injection Hdata as <-. by vm_compute.
  - reflexivity.
  - by vm_compute.
  - cbn. lia.
Defined.

Lemma pagination_never_stops_on_full_pages_witness :
  fetchChangedFiles 5 (λ _, Returned Samples.fullPage) [] 1 = None.
Proof.
  apply (pagination_never_stops_on_full_pages
           (λ _, Returned Samples.fullPage) [] 1 5).
  intros p _. exists Samples.fullPage. split; [reflexivity|by vm_compute].
Defined.

Lemma siblings_are_the_other_readable_m_files_witness :
  ("helper", "y = reshape(x, 2, 2);")
    ∈ readSiblings Samples.sampleEnv "src/solve.m" "ws".
Proof.
  apply (proj2 (proj1 (siblings_are_the_other_readable_m_files
                         Samples.sampleEnv "src/solve.m" "ws" "helper"
                         "y = reshape(x, 2, 2);"))).
  exists ["solve.m"; "helper.m"; "notes.txt"; "broken.m"].
  split; [reflexivity|]. split; [by right; left|]. by split.
Defined.

Lemma run_indexes_the_matching_m_files_with_a_patch_witness :
  is_Some (parseChangedLines
             (mFilesOf Samples.sampleEnv "**/*.m"
                [Samples.solveFile; Samples.readmeFile; Samples.oldFile])
             !! "src/solve.m").
Proof.
  apply (proj2 (run_indexes_the_matching_m_files_with_a_patch
                  Samples.sampleEnv "**/*.m"
                  [Samples.solveFile; Samples.readmeFile; Samples.oldFile]
                  "src/solve.m")).
  exists Samples.solveFile, examplePatch. split; [by left|]. by vm_compute.
Defined.


Lemma review_of_a_run_is_on_changed_m_files_witness :
  ∃ r sub,
    runOn Samples.sampleEnv Samples.sampleConfig Samples.samplePull "ws"
      [Samples.solveFile; Samples.readmeFile; Samples.oldFile] = Returned r
    ∧ reviewCall r = Some sub
    ∧ rs_owner sub = "octo" ∧ rs_event sub = "COMMENT".
Proof.
  destruct (runOn Samples.sampleEnv Samples.sampleConfig Samples.samplePull
              "ws" [Samples.solveFile; Samples.readmeFile; Samples.oldFile])
    as [r|] eqn:Hrun; [|vm_compute in Hrun; discriminate Hrun].
  destruct (reviewCall r) as [sub|] eqn:Hcall.
  - exists r, sub. split; [reflexivity|]. split; [exact Hcall|].
    destruct (review_of_a_run_is_on_changed_m_files Samples.sampleEnv
                Samples.sampleConfig Samples.samplePull "ws"
                [Samples.solveFile; Samples.readmeFile; Samples.oldFile]
                r sub Hrun Hcall) as (Howner & _ & _ & _ & Hevent & _).
    split; [exact Howner|exact Hevent].
  - vm_compute in Hrun. injection Hrun as <-. discriminate Hcall.
Defined.

End MainFacts.
